(** * Volume-alignment orchestration: the driver script and the pipeline components

    A shallow embedding of [alignment_script_final.py] (the command-line
    driver) and of [xai_components/xai_volalign/components.py] (the
    pipeline-component wrappers), with the properties their specification
    states about them.

    The repository implements no registration mathematics: every numerical
    step is a call into bigstream, VolAlign, zarr or numpy.  Those libraries
    are modelled as a record of functions (the "world") that the code is run
    against; what the code itself does -- which calls it makes, in which order,
    with which arguments, and what it does when a call raises -- is modelled
    in full and recorded as a trace of events. *)

From Stdlib Require Import ZArith Ascii String.
From Stdlib Require Import Floats.PrimFloat.
From stdpp Require Import base option list strings gmap.

Set Warnings "-inexact-float,-register-all".

Open Scope string_scope.
Open Scope Z_scope.

(* ===================================================================== *)
(** ** Python values and exceptions *)
(* ===================================================================== *)

Module Py.

(** The Python objects the two files handle.  Floats are binary64, as in
    CPython; the code passes them around and never computes with them. *)
Inductive value : Type :=
| VNone
| VBool (b : bool)
| VInt (n : Z)
| VFloat (x : float)
| VStr (s : string)
| VList (l : list value)
| VTuple (l : list value)
| VDict (items : list (string * value))   (* str-keyed dict, insertion order *)
| VArray (data : value)                   (* numpy.ndarray holding [data] *)
| VObj (cls : string) (id : nat).         (* an object owned by a library *)

(** [BaseException] has two kinds of instances: those of [Exception], which
    [except Exception] catches, and the others ([SystemExit],
    [KeyboardInterrupt], ...), which it lets through. *)
Inductive exn_kind : Type := IsException | BaseExceptionOnly.

Record exn : Type := mk_exn {
  exn_kind_of : exn_kind;
  exn_class : string;
  exn_str : string          (* what [str(e)] and [f"{e}"] give *)
}.

Definition isinstance_Exception (e : exn) : bool :=
  match exn_kind_of e with IsException => true | BaseExceptionOnly => false end.

(** [SystemExit(code)], raised by [sys.exit]. *)
Definition SystemExit (code : string) : exn :=
  mk_exn BaseExceptionOnly "SystemExit" code.

Definition AttributeError (name : string) : exn :=
  mk_exn IsException "AttributeError" name.

(** [x is not None] *)
Definition is_not_None (v : value) : bool :=
  match v with VNone => false | _ => true end.

(** [d[k]] on a dict literal; [None] stands for [KeyError]. *)
Fixpoint assoc (k : string) (items : list (string * value)) : option value :=
  match items with
  | [] => None
  | (k', v) :: rest => if String.eqb k k' then Some v else assoc k rest
  end.

Definition getitem (d : value) (k : string) : option value :=
  match d with
  | VDict items => assoc k items
  | _ => None
  end.

(** What a replacement field [{v}] of an f-string inserts.  The two files
    format paths only: in the driver, attributes that argparse filled with
    [type=str] (a [str], or the default [None]); in the components, the
    values of ports declared [str], in the lines printed after a success.
    The text of the other classes is not modelled and is left empty. *)
Definition format (v : value) : string :=
  match v with
  | VNone => "None"
  | VStr s => s
  | VBool true => "True"
  | VBool false => "False"
  | _ => ""
  end.

(** [np.array(v)] where it returns: an array holding [v].  The driver
    applies it to the three floats of [args.spacing], where it always
    returns; CreateBDVXML applies it to a port's value, where it may raise
    (see [CreateBDVXML_execute_with]). *)
Definition np_array (v : value) : value := VArray v.

(** [a.shape] for the arrays met here: one- and two-dimensional arrays
    built from (nested) lists. *)
Definition shape (a : value) : option (list nat) :=
  match a with
  | VArray (VList rows) =>
      match rows with
      | VList r :: _ =>
          if forallb (fun row => match row with
                                 | VList r' => Nat.eqb (length r') (length r)
                                 | _ => false
                                 end) rows
          then Some [length rows; length r]
          else None
      | _ => Some [length rows]
      end
  | _ => None
  end.

Definition is_square (a : value) : bool :=
  match shape a with
  | Some [n; m] => Nat.eqb n m
  | _ => false
  end.

End Py.
Import Py.

(* ===================================================================== *)
(** ** argparse, as far as the driver uses it *)
(* ===================================================================== *)

Module Argparse.

(** The [type=] keyword of [add_argument]. *)
Inductive argtype : Type := type_str | type_float | type_int.

(** One [parser.add_argument(option_string, nargs=, type=, default=)].
    [nargs = None] is argparse's default: one value, stored bare. *)
Record argument : Type := add_argument {
  option_string : string;
  nargs : option nat;
  type_ : argtype;
  default : value
}.

(** argparse derives the attribute name from the option string: leading
    dashes dropped, inner dashes turned into underscores. *)
Fixpoint lstrip_dash (s : string) : string :=
  match s with
  | String "-"%char s' => lstrip_dash s'
  | _ => s
  end.

Fixpoint dash_to_underscore (s : string) : string :=
  match s with
  | EmptyString => EmptyString
  | String c s' =>
      String (if Ascii.eqb c "-"%char then "_"%char else c) (dash_to_underscore s')
  end.

Definition dest (a : argument) : string :=
  dash_to_underscore (lstrip_dash (option_string a)).

(** The builtins [float] and [int] applied to a command-line word;
    [None] stands for their [ValueError]. *)
Record builtins : Type := {
  py_float : string -> option float;
  py_int : string -> option Z
}.

Definition convert (b : builtins) (t : argtype) (raw : string) : option value :=
  match t with
  | type_str => Some (VStr raw)
  | type_float => VFloat <$> py_float b raw
  | type_int => VInt <$> py_int b raw
  end.

(** A command line as argparse sees it once it has split the words into
    option occurrences: the option string (abbreviations resolved) and the
    words that follow it up to the next option. *)
Definition occurrence : Type := string * list string.
Definition command_line : Type := list occurrence.

(** The [Namespace] that [parse_args] returns. *)
Abbreviation Namespace := (gmap string value).

(** Every attribute starts at its default.  A default that is not a string
    is stored as it is, without going through [type]. *)
Definition defaults (parser : list argument) : Namespace :=
  foldr (fun a ns => <[dest a := default a]> ns) ∅ parser.

Definition find_argument (parser : list argument) (opt : string) : option argument :=
  List.find (fun a => String.eqb (option_string a) opt) parser.

(** The value one occurrence stores: the converted word for [nargs=None],
    the list of the converted words for [nargs=n]; [None] when the number
    of words is wrong or a conversion fails (argparse's [error]). *)
Definition store_value (b : builtins) (a : argument) (raws : list string) : option value :=
  match nargs a with
  | None =>
      match raws with
      | [raw] => convert b (type_ a) raw
      | _ => None
      end
  | Some n =>
      if Nat.eqb (length raws) n
      then VList <$> mapM (convert b (type_ a)) raws
      else None
  end.

(** [parser.parse_args()]: occurrences are handled left to right, a later
    one overwrites an earlier one; [-h]/[--help] prints the help and exits
    with status 0; an unknown option, a wrong number of values or a failed
    conversion is a usage error, which exits with status 2. *)
Fixpoint parse_known (b : builtins) (parser : list argument)
         (argv : command_line) (ns : Namespace) : exn + Namespace :=
  match argv with
  | [] => inr ns
  | (opt, raws) :: rest =>
      if String.eqb opt "-h" || String.eqb opt "--help" then inl (SystemExit "0")
      else match find_argument parser opt with
           | None => inl (SystemExit "2")
           | Some a =>
               match store_value b a raws with
               | None => inl (SystemExit "2")
               | Some v => parse_known b parser rest (<[dest a := v]> ns)
               end
           end
  end.

Definition parse_args (b : builtins) (parser : list argument)
           (argv : command_line) : exn + Namespace :=
  parse_known b parser argv (defaults parser).

(** [args.name] *)
Definition getattr (ns : Namespace) (name : string) : exn + value :=
  match ns !! name with
  | Some v => inr v
  | None => inl (AttributeError name)
  end.

(** The option does not occur on the command line. *)
Definition omits (argv : command_line) (opt : string) : Prop :=
  Forall (fun o => o.1 ≠ opt) argv.

End Argparse.
Import Argparse.

(* ===================================================================== *)
(** ** The driver script: [alignment_script_final.py] *)
(* ===================================================================== *)

Module Driver.

(** The arguments of the call to
    [distributed_piecewise_alignment_pipeline] (five positional ones, then
    the keywords). *)
Record piecewise_args : Type := {
  pw_fix : value;
  pw_mov : value;
  pw_fix_spacing : value;
  pw_mov_spacing : value;
  pw_steps : value;
  pw_blocksize : value;
  pw_overlap : value;
  pw_rebalance_for_missing_neighbors : value;
  pw_write_path : string;
  pw_static_transform_list : value;
  pw_cluster_kwargs : value
}.

(** The arguments of the call to [distributed_apply_transform]. *)
Record apply_args : Type := {
  ap_fix : value;
  ap_mov : value;
  ap_fix_spacing : value;
  ap_mov_spacing : value;
  ap_transform_list : value;
  ap_blocksize : value;
  ap_write_path : string;
  ap_cluster_kwargs : value
}.

(** The libraries the script runs against.  Each call either returns a
    value or raises. *)
Record World : Type := {
  builtins_of : builtins;
  zarr_open : value -> string -> exn + value;
  np_loadtxt : value -> exn + value;
  distributed_piecewise_alignment_pipeline : piecewise_args -> exn + value;
  distributed_apply_transform : apply_args -> exn + value
}.

(** What the script does that is visible from outside, in order. *)
Inductive event : Type :=
| zarr_open_called (store : value) (mode : string)
| np_loadtxt_called (fname : value)
| piecewise_called (a : piecewise_args)
| printed (line : string)
| apply_called (a : apply_args).

(** A run: the events so far, and a value or the exception that ended it. *)
Record run (A : Type) : Type := Run {
  trace : list event;
  result : exn + A
}.
Arguments Run {A} _ _.
Arguments trace {A} _.
Arguments result {A} _.

#[export] Instance run_ret : MRet run := fun A a => Run [] (inr a).

#[export] Instance run_bind : MBind run := fun A B k m =>
  match result m with
  | inl e => Run (trace m) (inl e)
  | inr a => Run (trace m ++ trace (k a)) (result (k a))
  end.

(** A call into a library: recorded, then answered by the world. *)
Definition call {A} (ev : event) (answer : exn + A) : run A := Run [ev] answer.

(** A step that leaves no event (attribute access, parsing). *)
Definition lift {A} (r : exn + A) : run A := Run [] r.

Definition print (line : string) : run unit := Run [printed line] (inr tt).

(** Lines 15-22. *)
Definition parser : list argument := [
  add_argument "--fix_image_path" None type_str VNone;
  add_argument "--move_image_path" None type_str VNone;
  add_argument "--spacing" (Some 3%nat) type_float
    (VList [VFloat 0.1507417; VFloat 0.1507417; VFloat 0.1507417]);
  add_argument "--blocksize" (Some 3%nat) type_int
    (VList [VInt 512; VInt 512; VInt 512]);
  add_argument "--init_transform_path" None type_str VNone;
  add_argument "--output_dir" None type_str VNone;
  add_argument "--output_name" None type_str VNone
].

(** Lines 40-53: the cluster configuration of the alignment stage. *)
Definition cluster_config_alignment : value :=
  VDict [
    ("n_workers", VInt 16);
    ("threads_per_worker", VInt 1);
    ("memory_limit", VStr "70GB");
    ("config", VDict [
      ("distributed.nanny.pre-spawn-environ", VDict [
        ("MALLOC_TRIM_THRESHOLD_", VInt 65536);
        ("MKL_NUM_THREADS", VInt 6);
        ("OMP_NUM_THREADS", VInt 6);
        ("OPENBLAS_NUM_THREADS", VInt 6)
      ]);
      ("distributed.scheduler.worker-ttl", VNone)
    ])
  ].

(** Lines 87-100: the cluster configuration of the transform stage. *)
Definition cluster_config_transform : value :=
  VDict [
    ("n_workers", VInt 8);
    ("threads_per_worker", VInt 1);
    ("memory_limit", VStr "140GB");
    ("config", VDict [
      ("distributed.nanny.pre-spawn-environ", VDict [
        ("MALLOC_TRIM_THRESHOLD_", VInt 65536);
        ("MKL_NUM_THREADS", VInt 6);
        ("OMP_NUM_THREADS", VInt 6);
        ("OPENBLAS_NUM_THREADS", VInt 6)
      ]);
      ("distributed.scheduler.worker-ttl", VNone)
    ])
  ].

(** Lines 59-64. *)
Definition deform_kwargs : value :=
  VDict [
    ("alignment_spacing", VFloat 0.4);
    ("smooth_sigmas", VTuple [VInt 0]);
    ("control_point_spacing", VFloat 100.0);
    ("control_point_levels", VTuple [VInt 1])
  ].

(** Line 68. *)
Definition steps : value := VList [VTuple [VStr "deform"; deform_kwargs]].

(** Lines 78 and 107: the two f-strings. *)
Definition deformation_field_path (output_dir output_name : value) : string :=
  format output_dir ++ "/" ++ format output_name ++ "_deformation_field.zarr".

Definition aligned_round_path (output_dir output_name : value) : string :=
  format output_dir ++ "/" ++ format output_name ++ "_aligned_round.zarr".

(** Lines 29-109: [main] from the parsed arguments on. *)
Definition main_body (w : World) (args : Namespace) : run unit :=
  fix_image_path ← lift (getattr args "fix_image_path");
  move_image_path ← lift (getattr args "move_image_path");
  args_spacing ← lift (getattr args "spacing");
  let spacing := np_array args_spacing in
  blocksize ← lift (getattr args "blocksize");
  init_matrix_path ← lift (getattr args "init_transform_path");
  output_dir ← lift (getattr args "output_dir");
  output_name ← lift (getattr args "output_name");
  fix_image ← call (zarr_open_called fix_image_path "r")
                   (zarr_open w fix_image_path "r");
  move_image ← call (zarr_open_called move_image_path "r")
                    (zarr_open w move_image_path "r");
  let cluster_config := cluster_config_alignment in
  affine ← call (np_loadtxt_called init_matrix_path)
                (np_loadtxt w init_matrix_path);
  let alignment :=
    {| pw_fix := fix_image; pw_mov := move_image;
       pw_fix_spacing := spacing; pw_mov_spacing := spacing;
       pw_steps := steps;
       pw_blocksize := blocksize;
       pw_overlap := VFloat 0.3;
       pw_rebalance_for_missing_neighbors := VBool true;
       pw_write_path := deformation_field_path output_dir output_name;
       pw_static_transform_list := VList [affine];
       pw_cluster_kwargs := cluster_config |} in
  deform ← call (piecewise_called alignment)
                (distributed_piecewise_alignment_pipeline w alignment);
  print "deform done";;
  let cluster_config := cluster_config_transform in
  let transform :=
    {| ap_fix := fix_image; ap_mov := move_image;
       ap_fix_spacing := spacing; ap_mov_spacing := spacing;
       ap_transform_list := VList [affine; deform];
       ap_blocksize := blocksize;
       ap_write_path := aligned_round_path output_dir output_name;
       ap_cluster_kwargs := cluster_config |} in
  aligned ← call (apply_called transform)
                 (distributed_apply_transform w transform);
  mret tt.

(** Lines 11-109. *)
Definition main (w : World) (argv : command_line) : run unit :=
  args ← lift (parse_args (builtins_of w) parser argv);
  main_body w args.

(** The write paths handed to the libraries during a run, in order. *)
Definition write_paths (t : list event) : list string :=
  flat_map (fun ev => match ev with
                      | piecewise_called a => [pw_write_path a]
                      | apply_called a => [ap_write_path a]
                      | _ => []
                      end) t.

(** The cluster configurations handed to the libraries during a run. *)
Definition cluster_configs (t : list event) : list value :=
  flat_map (fun ev => match ev with
                      | piecewise_called a => [pw_cluster_kwargs a]
                      | apply_called a => [ap_cluster_kwargs a]
                      | _ => []
                      end) t.

(** The event is the dispatch of one of the two distributed stages. *)
Definition is_distributed (ev : event) : bool :=
  match ev with
  | piecewise_called _ | apply_called _ => true
  | _ => false
  end.

(** [cfg['config']['distributed.nanny.pre-spawn-environ'][name]] *)
Definition pre_spawn_environ (cfg : value) (name : string) : option value :=
  c ← getitem cfg "config";
  env ← getitem c "distributed.nanny.pre-spawn-environ";
  getitem env name.

(** The lines the script prints during a run. *)
Definition printed_lines (t : list event) : list string :=
  flat_map (fun ev => match ev with printed line => [line] | _ => [] end) t.

(** What the world answered to a call ([None] for an event that is not a
    call into a library). *)
Definition answer (w : World) (ev : event) : option (exn + value) :=
  match ev with
  | zarr_open_called store mode => Some (zarr_open w store mode)
  | np_loadtxt_called fname => Some (np_loadtxt w fname)
  | piecewise_called a => Some (distributed_piecewise_alignment_pipeline w a)
  | apply_called a => Some (distributed_apply_transform w a)
  | printed _ => None
  end.

(** The modes in which the script opened zarr stores during a run. *)
Definition open_modes (t : list event) : list string :=
  flat_map (fun ev => match ev with zarr_open_called _ mode => [mode] | _ => [] end) t.

(** The static transform lists handed to the alignment stage during a run. *)
Definition static_transform_lists (t : list event) : list value :=
  flat_map (fun ev => match ev with
                      | piecewise_called a => [pw_static_transform_list a]
                      | _ => []
                      end) t.

(** The local variables of lines 29-35. *)
Record locals : Type := {
  fix_image_path : value;
  move_image_path : value;
  spacing : value;
  blocksize : value;
  init_matrix_path : value;
  output_dir : value;
  output_name : value
}.

(** The values [args] holds at the seven attributes, if it holds them all. *)
Definition locals_of (args : Namespace) : option locals :=
  fix_image_path ← args !! "fix_image_path";
  move_image_path ← args !! "move_image_path";
  args_spacing ← args !! "spacing";
  blocksize ← args !! "blocksize";
  init_matrix_path ← args !! "init_transform_path";
  output_dir ← args !! "output_dir";
  output_name ← args !! "output_name";
  Some {| fix_image_path := fix_image_path;
          move_image_path := move_image_path;
          spacing := np_array args_spacing;
          blocksize := blocksize;
          init_matrix_path := init_matrix_path;
          output_dir := output_dir;
          output_name := output_name |}.

(** The argument lists of lines 71-81 and 102-109. *)
Definition alignment_call (l : locals) (fix_image move_image affine : value)
  : piecewise_args :=
  {| pw_fix := fix_image; pw_mov := move_image;
     pw_fix_spacing := spacing l; pw_mov_spacing := spacing l;
     pw_steps := steps;
     pw_blocksize := blocksize l;
     pw_overlap := VFloat 0.3;
     pw_rebalance_for_missing_neighbors := VBool true;
     pw_write_path := deformation_field_path (output_dir l) (output_name l);
     pw_static_transform_list := VList [affine];
     pw_cluster_kwargs := cluster_config_alignment |}.

Definition transform_call (l : locals) (fix_image move_image affine deform : value)
  : apply_args :=
  {| ap_fix := fix_image; ap_mov := move_image;
     ap_fix_spacing := spacing l; ap_mov_spacing := spacing l;
     ap_transform_list := VList [affine; deform];
     ap_blocksize := blocksize l;
     ap_write_path := aligned_round_path (output_dir l) (output_name l);
     ap_cluster_kwargs := cluster_config_transform |}.

(** The six ways a run of [main_body] can go: one per library call that
    may raise, and the run to completion.  Each gives the whole trace. *)
Inductive main_outcome (w : World) (l : locals) : list event -> exn + unit -> Prop :=
| fix_open_raises e :
    zarr_open w (fix_image_path l) "r" = inl e ->
    main_outcome w l
      [zarr_open_called (fix_image_path l) "r"]
      (inl e)
| move_open_raises fix_image e :
    zarr_open w (fix_image_path l) "r" = inr fix_image ->
    zarr_open w (move_image_path l) "r" = inl e ->
    main_outcome w l
      [zarr_open_called (fix_image_path l) "r";
       zarr_open_called (move_image_path l) "r"]
      (inl e)
| loadtxt_raises fix_image move_image e :
    zarr_open w (fix_image_path l) "r" = inr fix_image ->
    zarr_open w (move_image_path l) "r" = inr move_image ->
    np_loadtxt w (init_matrix_path l) = inl e ->
    main_outcome w l
      [zarr_open_called (fix_image_path l) "r";
       zarr_open_called (move_image_path l) "r";
       np_loadtxt_called (init_matrix_path l)]
      (inl e)
| alignment_raises fix_image move_image affine e :
    zarr_open w (fix_image_path l) "r" = inr fix_image ->
    zarr_open w (move_image_path l) "r" = inr move_image ->
    np_loadtxt w (init_matrix_path l) = inr affine ->
    distributed_piecewise_alignment_pipeline w
      (alignment_call l fix_image move_image affine) = inl e ->
    main_outcome w l
      [zarr_open_called (fix_image_path l) "r";
       zarr_open_called (move_image_path l) "r";
       np_loadtxt_called (init_matrix_path l);
       piecewise_called (alignment_call l fix_image move_image affine)]
      (inl e)
| transform_raises fix_image move_image affine deform e :
    zarr_open w (fix_image_path l) "r" = inr fix_image ->
    zarr_open w (move_image_path l) "r" = inr move_image ->
    np_loadtxt w (init_matrix_path l) = inr affine ->
    distributed_piecewise_alignment_pipeline w
      (alignment_call l fix_image move_image affine) = inr deform ->
    distributed_apply_transform w
      (transform_call l fix_image move_image affine deform) = inl e ->
    main_outcome w l
      [zarr_open_called (fix_image_path l) "r";
       zarr_open_called (move_image_path l) "r";
       np_loadtxt_called (init_matrix_path l);
       piecewise_called (alignment_call l fix_image move_image affine);
       printed "deform done";
       apply_called (transform_call l fix_image move_image affine deform)]
      (inl e)
| completes fix_image move_image affine deform aligned :
    zarr_open w (fix_image_path l) "r" = inr fix_image ->
    zarr_open w (move_image_path l) "r" = inr move_image ->
    np_loadtxt w (init_matrix_path l) = inr affine ->
    distributed_piecewise_alignment_pipeline w
      (alignment_call l fix_image move_image affine) = inr deform ->
    distributed_apply_transform w
      (transform_call l fix_image move_image affine deform) = inr aligned ->
    main_outcome w l
      [zarr_open_called (fix_image_path l) "r";
       zarr_open_called (move_image_path l) "r";
       np_loadtxt_called (init_matrix_path l);
       piecewise_called (alignment_call l fix_image move_image affine);
       printed "deform done";
       apply_called (transform_call l fix_image move_image affine deform)]
      (inr tt).

End Driver.
Import Driver.

(* ===================================================================== *)
(** ** The pipeline components: [xai_volalign/components.py] *)
(* ===================================================================== *)

Module Components.

(** A call into VolAlign: the function's name, its positional arguments
    and its keyword arguments. *)
Record library_call : Type := {
  callee : string;
  positional : list value;
  keywords : list (string * value)
}.

(** The VolAlign library: each call returns a value or raises. *)
Definition VolAlign : Type := library_call -> exn + value.

Inductive event : Type :=
| called (c : library_call)
| logged (line : string).

(** A component instance: the [value] of each of its ports (a port that
    was never assigned holds [None]), and what it has done so far. *)
Record component : Type := {
  ports : gmap string value;
  log : list event
}.

(** A method body: it runs against the library, may change the component,
    and returns or raises. *)
Record method (A : Type) : Type := Method {
  run_method : VolAlign -> component -> component * (exn + A)
}.
Arguments Method {A} _.
Arguments run_method {A} _ _ _.

#[export] Instance method_ret : MRet method := fun A a =>
  Method (fun _ self => (self, inr a)).

#[export] Instance method_bind : MBind method := fun A B k m =>
  Method (fun lib self =>
    match run_method m lib self with
    | (self', inl e) => (self', inl e)
    | (self', inr a) => run_method (k a) lib self'
    end).

(** [self.name.value] *)
Definition port_value (name : string) : method value :=
  Method (fun _ self =>
    (self, inr match ports self !! name with Some v => v | None => VNone end)).

(** [self.name.value = v] *)
Definition set_port_value (name : string) (v : value) : method unit :=
  Method (fun _ self =>
    ({| ports := <[name := v]> (ports self); log := log self |}, inr tt)).

Definition print (line : string) : method unit :=
  Method (fun _ self =>
    ({| ports := ports self; log := log self ++ [logged line] |}, inr tt)).

(** A call of the VolAlign function [f] with positional arguments [args]
    and keyword arguments [kwargs]. *)
Definition invoke (f : string) (args : list value) (kwargs : list (string * value))
  : method value :=
  let c := {| callee := f; positional := args; keywords := kwargs |} in
  Method (fun lib self =>
    ({| ports := ports self; log := log self ++ [called c] |}, lib c)).

(** A bare [raise] inside a handler: the exception being handled. *)
Definition raise {A} (e : exn) : method A :=
  Method (fun _ self => (self, inl e)).

(** [try: body  except Exception as e: handler e].  What [body] did to the
    component before it raised stays done. *)
Definition try_except_Exception {A} (body : method A) (handler : exn -> method A)
  : method A :=
  Method (fun lib self =>
    match run_method body lib self with
    | (self', inl e) =>
        if isinstance_Exception e then run_method (handler e) lib self'
        else (self', inl e)
    | r => r
    end).

(** [x if x is not None else d] *)
Definition or_default (x d : value) : value :=
  if is_not_None x then x else d.

(** The handler every [execute] ends with:
    [print(f"<prefix>{e}"); raise]. *)
Definition log_and_reraise (prefix : string) (e : exn) : method unit :=
  print (prefix ++ exn_str e);;
  raise e.

(** What a call that takes no part in the log answered: its value, or the
    exception it raised. *)
Definition answer_of {A} (r : exn + A) : method A :=
  Method (fun _ self => (self, r)).

(** [CreateBDVXML.execute], lines 41-65, against what [np.array] answers at
    line 45.  That conversion stands before the [try]: when it raises (as
    NumPy 1.24 and later do for a ragged [offset_array]) the exception
    leaves [execute] from there. *)
Definition CreateBDVXML_execute_with (np_array : value -> exn + value) : method unit :=
  tiles_folder ← port_value "tiles_folder";
  fov_list ← port_value "fov_list";
  offset_array_value ← port_value "offset_array";
  offset_array ← answer_of (np_array offset_array_value);
  voxel_size ← port_value "voxel_size";
  nchannels_value ← port_value "nchannels";
  let nchannels := or_default nchannels_value (VInt 1) in
  overlap_percentage_value ← port_value "overlap_percentage";
  let increment_scale := or_default overlap_percentage_value (VFloat 0.05) in
  try_except_Exception
    (invoke "create_bdv_xml" []
       [("tiles_folder", tiles_folder);
        ("fov_list", fov_list);
        ("offset_array", offset_array);
        ("voxel_size", voxel_size);
        ("nchannels", nchannels);
        ("increment_scale", increment_scale)];;
     print ("BDV/XML file successfully created in " ++ format tiles_folder))
    (log_and_reraise "Error during BDV/XML creation: ").

(** [CreateBDVXML.execute] when [np.array] returns the array, as it does for
    an [offset_array] that is a list of rows of equal length. *)
Definition CreateBDVXML_execute : method unit :=
  CreateBDVXML_execute_with (fun v => inr (np_array v)).

(** [StitchTiles.execute], lines 91-100. *)
Definition StitchTiles_execute : method unit :=
  xml_file_path ← port_value "xml_file_path";
  fiji_path ← port_value "fiji_path";
  try_except_Exception
    (invoke "stitch_tiles" [xml_file_path; fiji_path] [];;
     print ("Tile stitching executed successfully using XML: "
            ++ format xml_file_path ++ " and Fiji: " ++ format fiji_path))
    (log_and_reraise "Error during tile stitching: ").

(** [BlendTiles.execute], lines 135-151. *)
Definition BlendTiles_execute : method unit :=
  xml_file ← port_value "xml_file";
  output_folder ← port_value "output_folder";
  voxel_size ← port_value "voxel_size";
  channels_names ← port_value "channels_names";
  try_except_Exception
    (invoke "blend_tiles" []
       [("xml_file", xml_file);
        ("output_folder", output_folder);
        ("voxel_size", voxel_size);
        ("channels", channels_names)];;
     mret tt)
    (log_and_reraise "Error during tile blending: ").

(** [VoxelSpacingResample.execute], lines 186-203. *)
Definition VoxelSpacingResample_execute : method unit :=
  input_file ← port_value "input_file";
  output_path ← port_value "output_path";
  original_spacing ← port_value "original_spacing";
  target_spacing ← port_value "target_spacing";
  try_except_Exception
    (resampled ← invoke "voxel_spacing_resample" []
       [("input_file", input_file);
        ("output_path", output_path);
        ("original_spacing", original_spacing);
        ("target_spacing", target_spacing)];
     print ("Resampling completed. Resampled image saved to " ++ format output_path))
    (log_and_reraise "Error during voxel spacing resampling: ").

(** [ApplyManualAlignment.execute], lines 236-254. *)
Definition ApplyManualAlignment_execute : method unit :=
  matrix_file_path ← port_value "matrix_file_path";
  fixed_volume_path ← port_value "fixed_volume_path";
  moving_volume_path ← port_value "moving_volume_path";
  resample_output_fixed_path ← port_value "resample_output_fixed_path";
  resample_output_moving_path ← port_value "resample_output_moving_path";
  try_except_Exception
    (invoke "apply_manual_alignment" []
       [("matrix_file_path", matrix_file_path);
        ("fixed_slice_path", fixed_volume_path);
        ("moving_slice_path", moving_volume_path);
        ("resample_output_fixed_path", resample_output_fixed_path);
        ("resample_output_moving_path", resample_output_moving_path)];;
     print "Alignment applied successfully.")
    (log_and_reraise "Error during alignment: ").

(** [LinearAlignmentTuning.execute], lines 294-315. *)
Definition LinearAlignmentTuning_execute : method unit :=
  fixed_path ← port_value "fixed_path";
  moving_path ← port_value "moving_path";
  fixed_spacing ← port_value "fixed_spacing";
  moving_spacing ← port_value "moving_spacing";
  output_matrix_file ← port_value "output_matrix_file";
  steps_value ← port_value "steps";
  let steps := or_default steps_value VNone in
  try_except_Exception
    (result ← invoke "linear_alignment_tuning" []
       [("fixed_path", fixed_path);
        ("moving_path", moving_path);
        ("fixed_spacing", fixed_spacing);
        ("moving_spacing", moving_spacing);
        ("output_matrix_file", output_matrix_file);
        ("steps", steps)];
     set_port_value "affine_matrix" result;;
     print ("Affine transformation matrix computed and saved to "
            ++ format output_matrix_file))
    (log_and_reraise "Error during linear alignment tuning: ").

(** [ConvertZarrToTiff.execute], lines 337-345. *)
Definition ConvertZarrToTiff_execute : method unit :=
  zarr_file ← port_value "zarr_file";
  tiff_file ← port_value "tiff_file";
  try_except_Exception
    (invoke "convert_zarr_to_tiff" [zarr_file; tiff_file] [];;
     print ("Converted Zarr file " ++ format zarr_file
            ++ " to TIFF file " ++ format tiff_file))
    (log_and_reraise "Error in convert_zarr_to_tiff: ").

(** [ConvertTiffToZarr.execute], lines 367-375. *)
Definition ConvertTiffToZarr_execute : method unit :=
  tiff_file ← port_value "tiff_file";
  zarr_file ← port_value "zarr_file";
  try_except_Exception
    (invoke "convert_tiff_to_zarr" [tiff_file; zarr_file] [];;
     print ("Converted TIFF file " ++ format tiff_file
            ++ " to Zarr file " ++ format zarr_file))
    (log_and_reraise "Error in convert_tiff_to_zarr: ").

(** [DownsampleTiff.execute], lines 401-411. *)
Definition DownsampleTiff_execute : method unit :=
  input_path ← port_value "input_path";
  output_path ← port_value "output_path";
  factors ← port_value "factors";
  order_value ← port_value "order";
  let order := or_default order_value (VInt 1) in
  try_except_Exception
    (invoke "downsample_tiff" [input_path; output_path; factors; order] [];;
     print ("Downsampled TIFF from " ++ format input_path
            ++ " and saved to " ++ format output_path))
    (log_and_reraise "Error in downsample_tiff: ").

(** [StackTiffImages.execute], lines 434-443. *)
Definition StackTiffImages_execute : method unit :=
  file1 ← port_value "file1";
  file2 ← port_value "file2";
  output_file ← port_value "output_file";
  try_except_Exception
    (invoke "stack_tiff_images" [file1; file2; output_file] [];;
     print ("Stacked TIFF images from " ++ format file1 ++ " and "
            ++ format file2 ++ " and saved to " ++ format output_file))
    (log_and_reraise "Error in stack_tiff_images: ").

(** [ReorientVolume.execute], lines 470-481. *)
Definition ReorientVolume_execute : method unit :=
  input_path ← port_value "input_path";
  output_path ← port_value "output_path";
  rotation ← port_value "rotation";
  flip ← port_value "flip";
  try_except_Exception
    (result ← invoke "reorient_volume_and_save_tiff"
       [input_path; output_path; rotation; flip] [];
     set_port_value "reoriented_volume" result;;
     print ("Reoriented volume from " ++ format input_path
            ++ " saved to " ++ format output_path))
    (log_and_reraise "Error in reorient_volume_and_save_tiff: ").

(** The component classes of the file. *)
Inductive component_class : Type :=
| CreateBDVXML | StitchTiles | BlendTiles | VoxelSpacingResample
| ApplyManualAlignment | LinearAlignmentTuning | ConvertZarrToTiff
| ConvertTiffToZarr | DownsampleTiff | StackTiffImages | ReorientVolume.

Definition execute (c : component_class) : method unit :=
  match c with
  | CreateBDVXML => CreateBDVXML_execute
  | StitchTiles => StitchTiles_execute
  | BlendTiles => BlendTiles_execute
  | VoxelSpacingResample => VoxelSpacingResample_execute
  | ApplyManualAlignment => ApplyManualAlignment_execute
  | LinearAlignmentTuning => LinearAlignmentTuning_execute
  | ConvertZarrToTiff => ConvertZarrToTiff_execute
  | ConvertTiffToZarr => ConvertTiffToZarr_execute
  | DownsampleTiff => DownsampleTiff_execute
  | StackTiffImages => StackTiffImages_execute
  | ReorientVolume => ReorientVolume_execute
  end.

(** The [OutArg] ports each class declares. *)
Definition out_ports (c : component_class) : list string :=
  match c with
  | LinearAlignmentTuning => ["affine_matrix"]
  | ReorientVolume => ["reoriented_volume"]
  | _ => []
  end.


(** The library calls recorded in a log. *)
Definition calls (l : list event) : list library_call :=
  flat_map (fun ev => match ev with called c => [c] | logged _ => [] end) l.

End Components.

Import Components.

(* ===================================================================== *)
(** ** Worlds to run the code in *)
(* ===================================================================== *)

Module Examples.

(** [float] and [int] on the few words the example command lines use. *)
Definition builtins0 : builtins :=
  {| py_float := fun s =>
       if String.eqb s "1" then Some 1%float
       else if String.eqb s "2" then Some 2%float
       else if String.eqb s "0.5" then Some 0.5%float
       else None;
     py_int := fun s =>
       if String.eqb s "64" then Some 64
       else if String.eqb s "128" then Some 128
       else None |}.

Definition fix_handle : value := VObj "zarr.core.Array" 0.
Definition move_handle : value := VObj "zarr.core.Array" 1.
Definition field_handle : value := VObj "zarr.core.Array" 2.
Definition aligned_handle : value := VObj "zarr.core.Array" 3.

(** The 4x4 identity, as [np.loadtxt] returns it. *)
Definition identity4 : value :=
  VArray (VList [
    VList [VFloat 1; VFloat 0; VFloat 0; VFloat 0];
    VList [VFloat 0; VFloat 1; VFloat 0; VFloat 0];
    VList [VFloat 0; VFloat 0; VFloat 1; VFloat 0];
    VList [VFloat 0; VFloat 0; VFloat 0; VFloat 1]]).

(** What [np.loadtxt] returns for a file of two rows of three numbers. *)
Definition two_by_three : value :=
  VArray (VList [
    VList [VFloat 1; VFloat 0; VFloat 0];
    VList [VFloat 0; VFloat 1; VFloat 0]]).

Definition ValueError (msg : string) : exn := mk_exn IsException "ValueError" msg.
Definition RuntimeError (msg : string) : exn := mk_exn IsException "RuntimeError" msg.

(** A world in which every call succeeds; the matrix file holds [matrix]. *)
Definition world_ok (matrix : value) : World :=
  {| builtins_of := builtins0;
     zarr_open := fun store _ =>
       inr (if String.eqb (format store) "fix.zarr" then fix_handle else move_handle);
     np_loadtxt := fun _ => inr matrix;
     distributed_piecewise_alignment_pipeline := fun _ => inr field_handle;
     distributed_apply_transform := fun _ => inr aligned_handle |}.

(** A world whose matrix file cannot be parsed. *)
Definition world_bad_matrix : World :=
  {| builtins_of := builtins0;
     zarr_open := zarr_open (world_ok identity4);
     np_loadtxt := fun _ => inl (ValueError "could not convert string to float");
     distributed_piecewise_alignment_pipeline := fun _ => inr field_handle;
     distributed_apply_transform := fun _ => inr aligned_handle |}.



(** A command line that gives the five paths and leaves [--spacing] and
    [--blocksize] out. *)
Definition argv_paths : command_line := [
  ("--fix_image_path", ["fix.zarr"]);
  ("--move_image_path", ["move.zarr"]);
  ("--init_transform_path", ["affine.txt"]);
  ("--output_dir", ["out"]);
  ("--output_name", ["round2"])
].

(** The same with a spacing and a block size. *)
Definition argv_full : command_line :=
  (argv_paths ++
     [("--spacing", ["0.5"; "1"; "2"]); ("--blocksize", ["64"; "128"; "128"])])%list.

(** VolAlign failing on every call. *)
Definition volalign_fails : VolAlign := fun _ => inl (RuntimeError "file not found").

(** VolAlign returning an array from every call. *)
Definition volalign_ok : VolAlign := fun _ => inr identity4.

(** A component none of whose ports has been assigned. *)
Definition fresh : component := {| ports := ∅; log := [] |}.

End Examples.

(* ===================================================================== *)
(** ** Ways to look at a run *)
(* ===================================================================== *)

Module Observations.

(** What [type=t] makes of one word. *)
Definition scalar_ok (t : argtype) (v : value) : bool :=
match t, v with
| type_str, VStr _ => true
| type_float, VFloat _ => true
| type_int, VInt _ => true
| _, _ => false
end.

(** What an occurrence of the argument [a] stores: one converted word for
    [nargs=None], a list of [n] converted words for [nargs=n]. *)
Definition value_ok (a : argument) (v : value) : bool :=
match nargs a with
| None => scalar_ok (type_ a) v
| Some n =>
    match v with
    | VList l => Nat.eqb (length l) n && forallb (scalar_ok (type_ a)) l
    | _ => false
    end
end.

(** Every attribute of the parser [p] holds its default or a value of the
    shape its argument declares. *)
Definition shaped (p : list argument) (ns : gmap string value) : Prop :=
forall a, In a p ->
  exists v, ns !! dest a = Some v /\ (v = default a \/ value_ok a v = true).

(** An occurrence that argparse rejects: the option is not one of the
    parser's, or its words are not what the argument takes. *)
Definition rejected (b : builtins) (p : list argument) (o : occurrence) : Prop :=
match find_argument p o.1 with
| None => True
| Some a => store_value b a o.2 = None
end.

(** The call returned: it did not raise. *)
Definition returned {A : Type} (r : exn + A) : bool :=
match r with
| inl _ => false
| inr _ => true
end.

(** [args.k] for the namespace the parser returned, if it returned one. *)
Definition attr (r : exn + Namespace) (k : string) : option value :=
match r with
| inl _ => None
| inr args => args !! k
end.

(** An occurrence of [-h] or [--help]. *)
Definition asks_help (o : occurrence) : Prop := o.1 = "-h" \/ o.1 = "--help".

Definition is_float_triple (v : value) : bool :=
match v with
| VList [VFloat _; VFloat _; VFloat _] => true
| _ => false
end.

Definition is_int_triple (v : value) : bool :=
match v with
| VList [VInt _; VInt _; VInt _] => true
| _ => false
end.

Definition is_str_or_None (v : value) : bool :=
match v with
| VNone | VStr _ => true
| _ => false
end.

(** The kind of each step of the script. *)
Inductive step : Type := opens | loads | aligns | prints | transforms.

Definition step_of (ev : Driver.event) : step :=
match ev with
| zarr_open_called _ _ => opens
| np_loadtxt_called _ => loads
| piecewise_called _ => aligns
| Driver.printed _ => prints
| apply_called _ => transforms
end.

(** Lines 37-109 of the driver, as the kinds of their steps. *)
Definition script : list step := [opens; opens; loads; aligns; prints; transforms].

(** What a component logged during one [execute]. *)
Definition executed (c : component_class) (lib : VolAlign) (self : component)
  : list Components.event :=
drop (length (log self)) (log (run_method (execute c) lib self).1).

(** The lines among the events of a log. *)
Definition lines (l : list Components.event) : list string :=
flat_map (fun ev => match ev with called _ => [] | logged line => [line] end) l.

(** The value a call passes under the keyword [k]. *)
Definition keyword (c : library_call) (k : string) : option value :=
assoc k (keywords c).

(** [self.name.value = v], done from outside before [execute] runs. *)
Definition with_port (name : string) (v : value) (self : component) : component :=
{| ports := <[name := v]> (ports self); log := log self |}.

(** [x if x is not None else d], read from a port that may never have been
    assigned. *)
Definition port_or (self : component) (name : string) (d : value) : value :=
match ports self !! name with
| None | Some VNone => d
| Some v => v
end.

(** The distributed stages a run dispatched, in order. *)
Definition dispatched (t : list Driver.event) : list Driver.event :=
List.filter is_distributed t.

(** The files a run loaded. *)
Definition loaded_files (t : list Driver.event) : list value :=
flat_map (fun ev => match ev with np_loadtxt_called fname => [fname] | _ => [] end) t.

(** The stores a run opened. *)
Definition opened_stores (t : list Driver.event) : list value :=
flat_map (fun ev => match ev with zarr_open_called store _ => [store] | _ => [] end) t.


(** The two stores the command line names as inputs. *)
Definition input_stores (r : exn + Namespace) : list value :=
match attr r "fix_image_path", attr r "move_image_path" with
| Some f, Some m => [f; m]
| _, _ => []
end.

(** The two paths the command line makes the stages write to. *)
Definition output_paths (r : exn + Namespace) : list string :=
match attr r "output_dir", attr r "output_name" with
| Some d, Some n => [deformation_field_path d n; aligned_round_path d n]
| _, _ => []
end.

(** A command line whose fixed volume is the store the transform stage
    writes to. *)
Definition argv_alias : command_line := [
  ("--fix_image_path", ["out/round2_aligned_round.zarr"]);
  ("--move_image_path", ["move.zarr"]);
  ("--init_transform_path", ["affine.txt"]);
  ("--output_dir", ["out"]);
  ("--output_name", ["round2"])
].

End Observations.

Import Examples.
Import Observations.

(* ===================================================================== *)
(** ** Facts about the argument parser *)
(* ===================================================================== *)

Section ArgparseFacts.

Variable b : builtins.
Variable p : list argument.

(** Parsing never removes an attribute. *)
Lemma parse_known_keeps argv :
  forall (ns ns' : gmap string value) (k : string),
    parse_known b p argv ns = inr ns' ->
    is_Some (ns !! k) -> is_Some (ns' !! k).
Proof.
  induction argv as [|[opt raws] rest IH]; intros ns ns' k Hp Hk; simpl in Hp.
  - by inversion Hp; subst.
  - destruct (String.eqb opt "-h" || String.eqb opt "--help"); [discriminate|].
    destruct (find_argument p opt) as [a|]; [|discriminate].
    destruct (store_value b a raws) as [v|]; [|discriminate].
    apply (IH _ _ _ Hp).
    destruct (decide (dest a = k)) as [->|Hne].
    + rewrite lookup_insert_eq. eauto.
    + by rewrite lookup_insert_ne.
Qed.

(** An attribute that no occurrence on the command line stores to keeps
    the value it had. *)
Lemma parse_known_untouched argv :
  forall (ns ns' : gmap string value) (k : string),
    Forall (fun o => forall a, find_argument p o.1 = Some a -> dest a ≠ k) argv ->
    parse_known b p argv ns = inr ns' ->
    ns' !! k = ns !! k.
Proof.
  induction argv as [|[opt raws] rest IH]; intros ns ns' k Hall Hp; simpl in Hp.
  - by inversion Hp; subst.
  - inversion Hall as [|? ? Hhd Htl]; subst. simpl in Hhd.
    destruct (String.eqb opt "-h" || String.eqb opt "--help"); [discriminate|].
    destruct (find_argument p opt) as [a|]; [|discriminate].
    destruct (store_value b a raws) as [v|]; [|discriminate].
    rewrite (IH _ _ _ Htl Hp).
    apply lookup_insert_ne. by apply Hhd.
Qed.

(** The option string under which an argument was found is its own. *)
Lemma find_argument_Some opt a :
  find_argument p opt = Some a -> In a p /\ option_string a = opt.
Proof.
  unfold find_argument. intros H. apply List.find_some in H as [Hin Heq].
  split; [done|]. by apply String.eqb_eq.
Qed.

End ArgparseFacts.

(* ===================================================================== *)
(** ** Facts about the driver *)
(* ===================================================================== *)

Section DriverFacts.

Variable w : World.

(** In the driver's parser an attribute is stored to by one option only:
    the one named after it. *)
Lemma parser_dest opt a :
  find_argument parser opt = Some a -> opt = "--" ++ dest a.
Proof.
  intros H. apply find_argument_Some in H as [Hin <-].
  unfold parser in Hin. simpl in Hin.
  repeat (destruct Hin as [<-|Hin]; [reflexivity|]). contradiction.
Qed.

Lemma omits_untouched argv (k : string) (ns ns' : gmap string value) :
  omits argv ("--" ++ k) ->
  parse_known (builtins_of w) parser argv ns = inr ns' ->
  ns' !! k = ns !! k.
Proof.
  intros Hom. apply parse_known_untouched.
  eapply Forall_impl; [exact Hom|]. intros [opt raws] Hne a Hfind Hd.
  apply Hne. cbn [fst] in *. rewrite (parser_dest _ _ Hfind). by rewrite Hd.
Qed.

(** After parsing, the seven attributes the script reads are all there. *)
Lemma parse_args_locals argv args :
  parse_args (builtins_of w) parser argv = inr args ->
  exists l, locals_of args = Some l.
Proof.
  intros Hp. unfold parse_args in Hp.
  assert (Hk : forall k, is_Some (defaults parser !! k) -> is_Some (args !! k))
    by (intros k; exact (parse_known_keeps _ _ _ _ _ k Hp)).
  unfold locals_of.
  destruct (Hk "fix_image_path") as [v1 ->]; [by eexists|].
  destruct (Hk "move_image_path") as [v2 ->]; [by eexists|].
  destruct (Hk "spacing") as [v3 ->]; [by eexists|].
  destruct (Hk "blocksize") as [v4 ->]; [by eexists|].
  destruct (Hk "init_transform_path") as [v5 ->]; [by eexists|].
  destruct (Hk "output_dir") as [v6 ->]; [by eexists|].
  destruct (Hk "output_name") as [v7 ->]; [by eexists|].
  simpl. eauto.
Qed.

(** What the local variables are, read back from [args]. *)
Lemma locals_of_Some args l :
  locals_of args = Some l ->
  args !! "fix_image_path" = Some (fix_image_path l) /\
  args !! "move_image_path" = Some (move_image_path l) /\
  (exists s, args !! "spacing" = Some s /\ spacing l = np_array s) /\
  args !! "blocksize" = Some (blocksize l) /\
  args !! "init_transform_path" = Some (init_matrix_path l) /\
  args !! "output_dir" = Some (output_dir l) /\
  args !! "output_name" = Some (output_name l).
Proof.
  unfold locals_of. intros H.
  destruct (args !! "fix_image_path") as [v1|]; [|discriminate].
  destruct (args !! "move_image_path") as [v2|]; [|discriminate].
  destruct (args !! "spacing") as [v3|]; [|discriminate].
  destruct (args !! "blocksize") as [v4|]; [|discriminate].
  destruct (args !! "init_transform_path") as [v5|]; [|discriminate].
  destruct (args !! "output_dir") as [v6|]; [|discriminate].
  destruct (args !! "output_name") as [v7|]; [|discriminate].
  simpl in H. inversion H; subst; simpl. repeat split; eauto.
Qed.

(** [main_body] goes one of the six ways of [main_outcome]. *)
Lemma main_body_outcome args l :
  locals_of args = Some l ->
  main_outcome w l (trace (main_body w args)) (result (main_body w args)).
Proof.
  intros Hl. destruct (locals_of_Some _ _ Hl)
    as (H1 & H2 & (s & H3 & Hs) & H4 & H5 & H6 & H7).
  unfold main_body, getattr. rewrite H1, H2, H3, H4, H5, H6, H7.
  unfold mbind, run_bind, lift, call, Driver.print; simpl.
  destruct (zarr_open w (fix_image_path l) "r") as [e|fix_image] eqn:Efix; simpl;
    [by eapply fix_open_raises|].
  destruct (zarr_open w (move_image_path l) "r") as [e|move_image] eqn:Emove; simpl;
    [by eapply move_open_raises|].
  destruct (np_loadtxt w (init_matrix_path l)) as [e|affine] eqn:Eaff; simpl;
    [by eapply loadtxt_raises|].
  rewrite <- Hs.
  change (Build_piecewise_args _ _ _ _ _ _ _ _ _ _ _)
    with (alignment_call l fix_image move_image affine).
  destruct (distributed_piecewise_alignment_pipeline w
              (alignment_call l fix_image move_image affine))
    as [e|deform] eqn:Edef; simpl;
    [by eapply alignment_raises|].
  change (Build_apply_args _ _ _ _ _ _ _ _)
    with (transform_call l fix_image move_image affine deform).
  destruct (distributed_apply_transform w
              (transform_call l fix_image move_image affine deform))
    as [e|aligned] eqn:Eapp; simpl.
  - by eapply transform_raises.
  - by eapply completes.
Qed.

(** A run of [main] either stops in the parser, before any call, or goes
    one of the six ways of [main_outcome]. *)
Lemma main_cases argv :
  (exists e, parse_args (builtins_of w) parser argv = inl e /\
             main w argv = Run [] (inl e)) \/
  (exists args l, parse_args (builtins_of w) parser argv = inr args /\
                  locals_of args = Some l /\
                  main_outcome w l (trace (main w argv)) (result (main w argv))).
Proof.
  unfold main. destruct (parse_args (builtins_of w) parser argv) as [e|args] eqn:Hp.
  - left. by exists e.
  - right. destruct (parse_args_locals _ _ Hp) as [l Hl].
    exists args, l. repeat split; [done|].
    unfold mbind, run_bind, lift; simpl.
    apply (main_body_outcome _ _ Hl).
Qed.

End DriverFacts.

(* ===================================================================== *)
(** ** The driver's output paths *)
(* ===================================================================== *)

Lemma string_length_app (s1 s2 : string) :
  String.length (s1 ++ s2) = (String.length s1 + String.length s2)%nat.
Proof. induction s1 as [|c s1 IH]; simpl; [done|]. by rewrite IH. Qed.

(** The two output paths of a run are never the same path. *)
Lemma output_paths_differ (d n : value) :
  deformation_field_path d n ≠ aligned_round_path d n.
Proof.
  unfold deformation_field_path, aligned_round_path. intros H.
  apply (f_equal String.length) in H.
  rewrite !string_length_app in H. simpl in H. lia.
Qed.

Lemma output_paths_NoDup (d n : value) :
  NoDup [deformation_field_path d n; aligned_round_path d n].
Proof.
  apply NoDup_cons_2; [|apply NoDup_singleton].
  intros Hin. apply list_elem_of_singleton in Hin.
  by apply output_paths_differ in Hin.
Qed.

(** Takes a run of [main] apart: the parser stopped it, or it went one of
    the six ways of [main_outcome]. *)
Ltac main_run w argv :=
  let e := fresh "e" in
  let args := fresh "args" in
  let l := fresh "l" in
  let Hparse := fresh "Hparse" in
  let Hl := fresh "Hl" in
  let Hrun := fresh "Hrun" in
  let t := fresh "t" in
  let r := fresh "r" in
  destruct (main_cases w argv)
    as [(e & Hparse & ->) | (args & l & Hparse & Hl & Hrun)];
  [ simpl
  | set (t := trace (main w argv)) in *; set (r := result (main w argv)) in *;
    clearbody t r; destruct Hrun; simpl ].

(** A run that returns went the sixth way. *)
Lemma main_returns (w : World) (argv : command_line) :
  result (main w argv) = inr tt ->
  exists args l fix_image move_image affine deform,
    parse_args (builtins_of w) parser argv = inr args /\
    locals_of args = Some l /\
    zarr_open w (fix_image_path l) "r" = inr fix_image /\
    zarr_open w (move_image_path l) "r" = inr move_image /\
    np_loadtxt w (init_matrix_path l) = inr affine /\
    distributed_piecewise_alignment_pipeline w
      (alignment_call l fix_image move_image affine) = inr deform /\
    trace (main w argv) =
      [zarr_open_called (fix_image_path l) "r";
       zarr_open_called (move_image_path l) "r";
       np_loadtxt_called (init_matrix_path l);
       piecewise_called (alignment_call l fix_image move_image affine);
       Driver.printed "deform done";
       apply_called (transform_call l fix_image move_image affine deform)].
Proof.
  main_run w argv; intros Heq; try discriminate Heq.
  exists args, l, fix_image, move_image, affine, deform. by repeat split.
Qed.

(** A run that returns has dispatched the two stages, once each. *)
Lemma main_returns_dispatched (w : World) (argv : command_line) :
  result (main w argv) = inr tt ->
  exists a b,
    dispatched (trace (main w argv)) = [piecewise_called a; apply_called b] /\
    piecewise_called a ∈ trace (main w argv) /\
    apply_called b ∈ trace (main w argv) /\
    returned (distributed_piecewise_alignment_pipeline w a) = true.
Proof.
  intros Hres.
  destruct (main_returns w argv Hres)
    as (args & l & fix_image & move_image & affine & deform & _ & _ & _ & _ & _ & Hd & ->).
  eexists _, _. split; [reflexivity|]. rewrite Hd.
  repeat split; apply list_elem_of_In; simpl; tauto.
Qed.

(** Once the matrix has loaded, the alignment stage is dispatched. *)
Lemma main_aligns (w : World) (argv : command_line) (path affine : value) :
  In (np_loadtxt_called path) (trace (main w argv)) ->
  np_loadtxt w path = inr affine ->
  exists args l fix_image move_image,
    parse_args (builtins_of w) parser argv = inr args /\
    locals_of args = Some l /\
    path = init_matrix_path l /\
    In (piecewise_called (alignment_call l fix_image move_image affine))
       (trace (main w argv)).
Proof.
  main_run w argv; intros Hin Hret; simpl in Hin.
  all: repeat (destruct Hin as [Heq|Hin]; [try discriminate Heq|]);
       try contradiction.
  all: injection Heq as <-.
  - congruence.
  - rewrite Hret in H1. injection H1 as <-.
    exists args, l, fix_image, move_image. repeat split; try done. simpl; tauto.
  - rewrite Hret in H1. injection H1 as <-.
    exists args, l, fix_image, move_image. repeat split; try done. simpl; tauto.
  - rewrite Hret in H1. injection H1 as <-.
    exists args, l, fix_image, move_image. repeat split; try done. simpl; tauto.
Qed.

(** Once the alignment stage has returned, the transform stage is
    dispatched. *)
Lemma main_transforms (w : World) (argv : command_line) (a : piecewise_args)
      (deform : value) :
  In (piecewise_called a) (trace (main w argv)) ->
  distributed_piecewise_alignment_pipeline w a = inr deform ->
  exists args l fix_image move_image affine,
    parse_args (builtins_of w) parser argv = inr args /\
    locals_of args = Some l /\
    np_loadtxt w (init_matrix_path l) = inr affine /\
    a = alignment_call l fix_image move_image affine /\
    In (apply_called (transform_call l fix_image move_image affine deform))
       (trace (main w argv)).
Proof.
  main_run w argv; intros Hin Hret; simpl in Hin.
  all: repeat (destruct Hin as [Heq|Hin]; [try discriminate Heq|]);
       try contradiction.
  all: injection Heq as <-.
  - congruence.
  - rewrite Hret in H2. injection H2 as <-.
    exists args, l, fix_image, move_image, affine. repeat split; try done.
    simpl; tauto.
  - rewrite Hret in H2. injection H2 as <-.
    exists args, l, fix_image, move_image, affine. repeat split; try done.
    simpl; tauto.
Qed.


(** C1: in a run of [main] with output directory [D] and output name [N],
    the alignment stage is given the write path [D/N_deformation_field.zarr],
    the transform stage the write path [D/N_aligned_round.zarr]; the write
    paths handed to the libraries are these two, in this order, as far as
    the run gets, and both when it completes. *)
Theorem C1_write_paths (w : World) (argv : command_line) (args : Namespace)
        (D N : string) :
  parse_args (builtins_of w) parser argv = inr args ->
  args !! "output_dir" = Some (VStr D) ->
  args !! "output_name" = Some (VStr N) ->
  let t := trace (main w argv) in
  let field := D ++ "/" ++ N ++ "_deformation_field.zarr" in
  let aligned := D ++ "/" ++ N ++ "_aligned_round.zarr" in
  Forall (fun ev => match ev with
                    | piecewise_called a => pw_write_path a = field
                    | apply_called a => ap_write_path a = aligned
                    | _ => True
                    end) t /\
  write_paths t `prefix_of` [field; aligned] /\
  (result (main w argv) = inr tt -> write_paths t = [field; aligned]).
Proof.
  intros Hp Hd Hn. main_run w argv; [congruence|..].
  all: rewrite Hp in Hparse; inversion Hparse; subst args0.
  all: destruct (locals_of_Some _ _ Hl) as (_ & _ & _ & _ & _ & Hd' & Hn').
  all: rewrite Hd in Hd'; rewrite Hn in Hn'.
  all: inversion Hd' as [Hod]; inversion Hn' as [Hon].
  all: unfold alignment_call, transform_call, deformation_field_path,
         aligned_round_path; rewrite <- ?Hod, <- ?Hon; simpl.
  all: split; [repeat constructor|].
  all: split; [|first [discriminate | reflexivity | done]].
  - by exists [D ++ "/" ++ N ++ "_deformation_field.zarr";
               D ++ "/" ++ N ++ "_aligned_round.zarr"].
  - by exists [D ++ "/" ++ N ++ "_deformation_field.zarr";
               D ++ "/" ++ N ++ "_aligned_round.zarr"].
  - by exists [D ++ "/" ++ N ++ "_deformation_field.zarr";
               D ++ "/" ++ N ++ "_aligned_round.zarr"].
  - by exists [D ++ "/" ++ N ++ "_aligned_round.zarr"].
  - by exists [].
  - by exists [].
Qed.

Lemma C1_write_paths_witness :
  let t := trace (main (world_ok identity4) argv_paths) in
  Forall (fun ev => match ev with
                    | piecewise_called a =>
                        pw_write_path a = "out/round2_deformation_field.zarr"
                    | apply_called a =>
                        ap_write_path a = "out/round2_aligned_round.zarr"
                    | _ => True
                    end) t /\
  write_paths t `prefix_of`
    ["out/round2_deformation_field.zarr"; "out/round2_aligned_round.zarr"] /\
  (result (main (world_ok identity4) argv_paths) = inr tt ->
   write_paths t =
     ["out/round2_deformation_field.zarr"; "out/round2_aligned_round.zarr"]).
Proof.
  eapply (C1_write_paths (world_ok identity4) argv_paths _ "out" "round2").
  - vm_compute. reflexivity.
  - reflexivity.
  - reflexivity.
Defined.

(* ===================================================================== *)
(** ** What the driver does when a library call raises *)
(* ===================================================================== *)



(* ===================================================================== *)
(** ** The cluster configurations *)
(* ===================================================================== *)

(** C4, as stated, fails: in a run that reaches both stages, the two
    configurations handed to the library set the three math-library
    variables to 6, not to 1. *)
Lemma C4_math_threads_are_six :
  cluster_configs (trace (main (world_ok identity4) argv_paths))
    = [cluster_config_alignment; cluster_config_transform] /\
  pre_spawn_environ cluster_config_alignment "MKL_NUM_THREADS" = Some (VInt 6) /\
  pre_spawn_environ cluster_config_alignment "OMP_NUM_THREADS" = Some (VInt 6) /\
  pre_spawn_environ cluster_config_alignment "OPENBLAS_NUM_THREADS" = Some (VInt 6) /\
  pre_spawn_environ cluster_config_transform "MKL_NUM_THREADS" = Some (VInt 6) /\
  pre_spawn_environ cluster_config_alignment "MKL_NUM_THREADS" ≠ Some (VInt 1).
Proof. vm_compute. repeat split. discriminate. Qed.

(** C4, amended: every cluster configuration the driver hands to a library
    call has [threads_per_worker] equal to 1, and sets [MKL_NUM_THREADS],
    [OMP_NUM_THREADS] and [OPENBLAS_NUM_THREADS] to 6 in the environment the
    workers are spawned with. *)
Theorem C4_cluster_configuration (w : World) (argv : command_line) :
  Forall (fun cfg =>
            getitem cfg "threads_per_worker" = Some (VInt 1) /\
            pre_spawn_environ cfg "MKL_NUM_THREADS" = Some (VInt 6) /\
            pre_spawn_environ cfg "OMP_NUM_THREADS" = Some (VInt 6) /\
            pre_spawn_environ cfg "OPENBLAS_NUM_THREADS" = Some (VInt 6))
         (cluster_configs (trace (main w argv))).
Proof.
  main_run w argv; repeat constructor.
Qed.

(* ===================================================================== *)
(** ** The initial transform *)
(* ===================================================================== *)

(** C5, as stated, fails for a matrix that is not square: a file of two rows
    of three numbers loads, the driver checks no shape, and the run
    dispatches both stages and completes. *)
Lemma C5_non_square_matrix_is_dispatched :
  np_loadtxt (world_ok two_by_three) (VStr "affine.txt") = inr two_by_three /\
  shape two_by_three = Some [2%nat; 3%nat] /\
  is_square two_by_three = false /\
  static_transform_lists (trace (main (world_ok two_by_three) argv_paths))
    = [VList [two_by_three]] /\
  List.map is_distributed (trace (main (world_ok two_by_three) argv_paths))
    = [false; false; false; true; false; true] /\
  result (main (world_ok two_by_three) argv_paths) = inr tt.
Proof. vm_compute. repeat split. Qed.

(** C5, amended: when loading the file given as [--init_transform_path]
    raises, the run ends with an exception and dispatches neither
    distributed stage; the exception is the loader's own whenever the run
    got as far as the loader.  When the file loads, the driver checks
    nothing about the matrix: a run that got as far as the loader dispatches
    the alignment stage with whatever was loaded. *)
Theorem C5_initial_transform (w : World) (argv : command_line) (args : Namespace)
        (path : value) :
  parse_args (builtins_of w) parser argv = inr args ->
  args !! "init_transform_path" = Some path ->
  let r := main w argv in
  match np_loadtxt w path with
  | inl e =>
      Forall (fun ev => is_distributed ev = false) (trace r) /\
      exists e', result r = inl e' /\
                 (In (np_loadtxt_called path) (trace r) -> e' = e)
  | inr affine =>
      In (np_loadtxt_called path) (trace r) ->
      static_transform_lists (trace r) = [VList [affine]]
  end.
Proof.
  intros Hp Hpath. cbv zeta. main_run w argv; [congruence|..].
  all: rewrite Hp in Hparse; inversion Hparse; subst args0.
  all: destruct (locals_of_Some _ _ Hl) as (_ & _ & _ & _ & Hi & _ & _).
  all: rewrite Hpath in Hi; inversion Hi; subst path.
  all: destruct (np_loadtxt w (init_matrix_path l)) as [e0|affine0] eqn:Eload.
  all: try discriminate.
  all: try (split; [repeat constructor|]; eexists; split; [reflexivity|];
            simpl; intros Hin; intuition congruence).
  all: try (intros Hin; simpl in Hin; intuition congruence).
  all: intros _; simpl; congruence.
Qed.

Lemma C5_initial_transform_witness :
  Forall (fun ev => is_distributed ev = false)
         (trace (main world_bad_matrix argv_paths)) /\
  exists e', result (main world_bad_matrix argv_paths) = inl e' /\
             (In (np_loadtxt_called (VStr "affine.txt"))
                 (trace (main world_bad_matrix argv_paths)) ->
              e' = ValueError "could not convert string to float").
Proof.
  eapply (C5_initial_transform world_bad_matrix argv_paths _ (VStr "affine.txt")).
  - vm_compute. reflexivity.
  - reflexivity.
Defined.

(** C6: the alignment stage is given [[affine]] as its static transform
    list and the transform stage the list [[affine; deform]], in this order,
    where [affine] is what [np.loadtxt] returned for the file given as
    [--init_transform_path] and [deform] is what the alignment stage of the
    same run returned.  The stages are dispatched: the alignment stage once
    the matrix has loaded, the transform stage once the alignment stage has
    returned, and a run that returns has dispatched exactly these two. *)
Theorem C6_transform_lists (w : World) (argv : command_line) :
  let t := trace (main w argv) in
  Forall (fun ev =>
    match ev with
    | piecewise_called a =>
        exists args path affine,
          parse_args (builtins_of w) parser argv = inr args /\
          args !! "init_transform_path" = Some path /\
          np_loadtxt w path = inr affine /\
          pw_static_transform_list a = VList [affine]
    | apply_called a =>
        exists args path affine alignment deform,
          parse_args (builtins_of w) parser argv = inr args /\
          args !! "init_transform_path" = Some path /\
          np_loadtxt w path = inr affine /\
          In (piecewise_called alignment) t /\
          pw_static_transform_list alignment = VList [affine] /\
          distributed_piecewise_alignment_pipeline w alignment = inr deform /\
          ap_transform_list a = VList [affine; deform]
    | _ => True
    end) t /\
  (forall path affine,
     In (np_loadtxt_called path) t -> np_loadtxt w path = inr affine ->
     exists a, In (piecewise_called a) t /\
               pw_static_transform_list a = VList [affine]) /\
  (forall a deform,
     In (piecewise_called a) t ->
     distributed_piecewise_alignment_pipeline w a = inr deform ->
     exists affine b,
       pw_static_transform_list a = VList [affine] /\
       In (apply_called b) t /\
       ap_transform_list b = VList [affine; deform]) /\
  (result (main w argv) = inr tt ->
   exists a b affine deform,
     dispatched t = [piecewise_called a; apply_called b] /\
     distributed_piecewise_alignment_pipeline w a = inr deform /\
     pw_static_transform_list a = VList [affine] /\
     ap_transform_list b = VList [affine; deform]).
Proof.
  cbv zeta. split; [|split; [|split]].
  - main_run w argv; [constructor|..].
    all: destruct (locals_of_Some _ _ Hl) as (_ & _ & _ & _ & Hi & _ & _).
    all: repeat (apply Forall_cons; split); try apply Forall_nil; try exact I.
    all: try (exists args, (init_matrix_path l), affine; by repeat split).
    all: exists args, (init_matrix_path l), affine,
           (alignment_call l fix_image move_image affine), deform.
    all: repeat split; try done; simpl; tauto.
  - intros path affine Hin Hret.
    destruct (main_aligns w argv path affine Hin Hret)
      as (args & l & fix_image & move_image & _ & _ & _ & Ha).
    by eexists.
  - intros a deform Hin Hret.
    destruct (main_transforms w argv a deform Hin Hret)
      as (args & l & fix_image & move_image & affine & _ & _ & _ & -> & Hb).
    exists affine. by eexists.
  - intros Hres.
    destruct (main_returns w argv Hres)
      as (args & l & fix_image & move_image & affine & deform
          & _ & _ & _ & _ & _ & Hd & ->).
    by eexists _, _, affine, deform.
Qed.

(* ===================================================================== *)
(** ** What the command line decides and what it does not *)
(* ===================================================================== *)

(** C7: [--spacing] takes three floats and defaults to
    [[0.1507417; 0.1507417; 0.1507417]], [--blocksize] takes three ints and
    defaults to [[512; 512; 512]]; on a command line that has neither
    option, every stage that is dispatched is given these defaults (the
    spacing as an array, for the fixed and for the moving volume), and a run
    that returns has dispatched both stages with them. *)
Theorem C7_defaults (w : World) (argv : command_line) :
  omits argv "--spacing" ->
  omits argv "--blocksize" ->
  let spacing0 := VList [VFloat 0.1507417; VFloat 0.1507417; VFloat 0.1507417] in
  let blocksize0 := VList [VInt 512; VInt 512; VInt 512] in
  find_argument parser "--spacing"
    = Some (add_argument "--spacing" (Some 3%nat) type_float spacing0) /\
  find_argument parser "--blocksize"
    = Some (add_argument "--blocksize" (Some 3%nat) type_int blocksize0) /\
  Forall (fun ev =>
    match ev with
    | piecewise_called a =>
        pw_fix_spacing a = np_array spacing0 /\
        pw_mov_spacing a = np_array spacing0 /\
        pw_blocksize a = blocksize0
    | apply_called a =>
        ap_fix_spacing a = np_array spacing0 /\
        ap_mov_spacing a = np_array spacing0 /\
        ap_blocksize a = blocksize0
    | _ => True
    end) (trace (main w argv)) /\
  (result (main w argv) = inr tt ->
   exists a b,
     dispatched (trace (main w argv)) = [piecewise_called a; apply_called b] /\
     pw_fix_spacing a = np_array spacing0 /\
     pw_mov_spacing a = np_array spacing0 /\
     pw_blocksize a = blocksize0 /\
     ap_fix_spacing b = np_array spacing0 /\
     ap_mov_spacing b = np_array spacing0 /\
     ap_blocksize b = blocksize0).
Proof.
  intros Hs Hb. cbv zeta. split; [reflexivity|]. split; [reflexivity|].
  match goal with |- ?F /\ _ => assert (HF : F) end.
  { main_run w argv; [constructor|..].
    all: destruct (locals_of_Some _ _ Hl) as (_ & _ & (s & Hsp & Hsl) & Hbl & _).
    all: unfold parse_args in Hparse.
    all: rewrite (omits_untouched w argv "spacing" _ _ Hs Hparse) in Hsp.
    all: rewrite (omits_untouched w argv "blocksize" _ _ Hb Hparse) in Hbl.
    all: vm_compute in Hsp; vm_compute in Hbl.
    all: inversion Hsp; inversion Hbl; subst s.
    all: repeat (apply Forall_cons; split); try apply Forall_nil; try exact I.
    all: simpl; rewrite Hsl; by repeat split. }
  split; [exact HF|]. intros Hres.
  destruct (main_returns_dispatched w argv Hres) as (a & b & Hd & Ha & Hb' & _).
  rewrite Forall_forall in HF.
  pose proof (HF _ Ha) as (? & ? & ?). pose proof (HF _ Hb') as (? & ? & ?).
  exists a, b. by repeat split.
Qed.

Lemma C7_defaults_witness :
  let spacing0 := VList [VFloat 0.1507417; VFloat 0.1507417; VFloat 0.1507417] in
  let blocksize0 := VList [VInt 512; VInt 512; VInt 512] in
  find_argument parser "--spacing"
    = Some (add_argument "--spacing" (Some 3%nat) type_float spacing0) /\
  find_argument parser "--blocksize"
    = Some (add_argument "--blocksize" (Some 3%nat) type_int blocksize0) /\
  Forall (fun ev =>
    match ev with
    | piecewise_called a =>
        pw_fix_spacing a = np_array spacing0 /\
        pw_mov_spacing a = np_array spacing0 /\
        pw_blocksize a = blocksize0
    | apply_called a =>
        ap_fix_spacing a = np_array spacing0 /\
        ap_mov_spacing a = np_array spacing0 /\
        ap_blocksize a = blocksize0
    | _ => True
    end) (trace (main (world_ok identity4) argv_paths)) /\
  (result (main (world_ok identity4) argv_paths) = inr tt ->
   exists a b,
     dispatched (trace (main (world_ok identity4) argv_paths))
       = [piecewise_called a; apply_called b] /\
     pw_fix_spacing a = np_array spacing0 /\
     pw_mov_spacing a = np_array spacing0 /\
     pw_blocksize a = blocksize0 /\
     ap_fix_spacing b = np_array spacing0 /\
     ap_mov_spacing b = np_array spacing0 /\
     ap_blocksize b = blocksize0).
Proof.
  apply (C7_defaults (world_ok identity4) argv_paths).
  - unfold omits, argv_paths. repeat constructor; simpl; discriminate.
  - unfold omits, argv_paths. repeat constructor; simpl; discriminate.
Defined.

(** C9: whatever the command line, the alignment stage is given the one
    step [('deform', {...})] with the four values of lines 59-64, the
    overlap 0.3 and [rebalance_for_missing_neighbors=True]; it is dispatched
    with them once the matrix has loaded, and a run that returns has
    dispatched it so.  The parser has the seven options of lines 16-22 and
    no other. *)
Theorem C9_alignment_steps (w : World) (argv : command_line) :
  let steps0 :=
    VList [VTuple [VStr "deform";
                   VDict [("alignment_spacing", VFloat 0.4);
                          ("smooth_sigmas", VTuple [VInt 0]);
                          ("control_point_spacing", VFloat 100.0);
                          ("control_point_levels", VTuple [VInt 1])]]] in
  List.map option_string parser
    = ["--fix_image_path"; "--move_image_path"; "--spacing"; "--blocksize";
       "--init_transform_path"; "--output_dir"; "--output_name"] /\
  Forall (fun ev =>
    match ev with
    | piecewise_called a =>
        pw_steps a = steps0 /\
        pw_overlap a = VFloat 0.3 /\
        pw_rebalance_for_missing_neighbors a = VBool true
    | _ => True
    end) (trace (main w argv)) /\
  (forall path affine,
     In (np_loadtxt_called path) (trace (main w argv)) ->
     np_loadtxt w path = inr affine ->
     exists a, In (piecewise_called a) (trace (main w argv)) /\
               pw_steps a = steps0 /\
               pw_overlap a = VFloat 0.3 /\
               pw_rebalance_for_missing_neighbors a = VBool true) /\
  (result (main w argv) = inr tt ->
   exists a b,
     dispatched (trace (main w argv)) = [piecewise_called a; apply_called b] /\
     pw_steps a = steps0 /\
     pw_overlap a = VFloat 0.3 /\
     pw_rebalance_for_missing_neighbors a = VBool true).
Proof.
  cbv zeta. split; [reflexivity|].
  match goal with |- ?F /\ _ => assert (HF : F) end.
  { main_run w argv; [constructor|..].
    all: repeat (apply Forall_cons; split); try apply Forall_nil; try exact I.
    all: by repeat split. }
  split; [exact HF|]. rewrite Forall_forall in HF. split.
  - intros path affine Hin Hret.
    destruct (main_aligns w argv path affine Hin Hret)
      as (args & l & fix_image & move_image & _ & _ & _ & Ha).
    eexists. split; [exact Ha|]. by repeat split.
  - intros Hres.
    destruct (main_returns_dispatched w argv Hres) as (a & b & Hd & Ha & _ & _).
    pose proof (HF _ Ha) as (? & ? & ?). exists a, b. by repeat split.
Qed.

(** C10: the parser has one spacing option, [--spacing]; in every run the
    array made from the value it stored is what both distributed stages are
    given, as the spacing of the fixed volume and as the spacing of the
    moving volume alike: the alignment stage once the matrix has loaded,
    the transform stage once the alignment stage has returned, and both in
    a run that returns. *)
Theorem C10_one_spacing (w : World) (argv : command_line) :
  List.filter (fun opt => String.eqb opt "--spacing") (List.map option_string parser)
    = ["--spacing"] /\
  List.map dest parser
    = ["fix_image_path"; "move_image_path"; "spacing"; "blocksize";
       "init_transform_path"; "output_dir"; "output_name"] /\
  match parse_args (builtins_of w) parser argv with
  | inl e => main w argv = Run [] (inl e)
  | inr args =>
      exists s, args !! "spacing" = Some s /\
        Forall (fun ev =>
          match ev with
          | piecewise_called a =>
              pw_fix_spacing a = np_array s /\ pw_mov_spacing a = np_array s
          | apply_called a =>
              ap_fix_spacing a = np_array s /\ ap_mov_spacing a = np_array s
          | _ => True
          end) (trace (main w argv)) /\
        (forall path affine,
           In (np_loadtxt_called path) (trace (main w argv)) ->
           np_loadtxt w path = inr affine ->
           exists a, In (piecewise_called a) (trace (main w argv)) /\
                     pw_fix_spacing a = np_array s /\ pw_mov_spacing a = np_array s) /\
        (forall a deform,
           In (piecewise_called a) (trace (main w argv)) ->
           distributed_piecewise_alignment_pipeline w a = inr deform ->
           exists b, In (apply_called b) (trace (main w argv)) /\
                     ap_fix_spacing b = np_array s /\ ap_mov_spacing b = np_array s) /\
        (result (main w argv) = inr tt ->
         exists a b,
           dispatched (trace (main w argv)) = [piecewise_called a; apply_called b] /\
           pw_fix_spacing a = np_array s /\ pw_mov_spacing a = np_array s /\
           ap_fix_spacing b = np_array s /\ ap_mov_spacing b = np_array s)
  end.
Proof.
  split; [reflexivity|]. split; [reflexivity|].
  destruct (parse_args (builtins_of w) parser argv) as [e|args] eqn:Hp.
  { unfold main. by rewrite Hp. }
  destruct (parse_args_locals w argv args Hp) as [l0 Hl0].
  destruct (locals_of_Some _ _ Hl0) as (_ & _ & (s & Hsp & Hsl) & _).
  exists s. split; [exact Hsp|].
  match goal with |- ?F /\ _ => assert (HF : F) end.
  { main_run w argv; [constructor|..].
    all: rewrite Hp in Hparse; injection Hparse as <-.
    all: rewrite Hl0 in Hl; injection Hl as <-.
    all: repeat (apply Forall_cons; split); try apply Forall_nil; try exact I.
    all: by simpl. }
  split; [exact HF|]. rewrite Forall_forall in HF. repeat split.
  - intros path affine Hin Hret.
    destruct (main_aligns w argv path affine Hin Hret)
      as (args' & l & fix_image & move_image & _ & _ & _ & Ha).
    eexists. split; [exact Ha|]. apply list_elem_of_In in Ha. exact (HF _ Ha).
  - intros a deform Hin Hret.
    destruct (main_transforms w argv a deform Hin Hret)
      as (args' & l & fix_image & move_image & affine & _ & _ & _ & _ & Hb).
    eexists. split; [exact Hb|]. apply list_elem_of_In in Hb. exact (HF _ Hb).
  - intros Hres.
    destruct (main_returns_dispatched w argv Hres) as (a & b & Hd & Ha & Hb & _).
    pose proof (HF _ Ha) as (? & ?). pose proof (HF _ Hb) as (? & ?).
    exists a, b. by repeat split.
Qed.

(* ===================================================================== *)
(** ** The volumes *)
(* ===================================================================== *)

(** C8, as stated, fails: the driver does not keep its outputs apart from
    its inputs.  On a command line whose fixed volume is the store
    [out/round2_aligned_round.zarr], with output directory [out] and output
    name [round2], the run opens that store as an input and then hands its
    path to the transform stage as the path to write to. *)
Lemma C8_transform_writes_to_an_input :
  let t := trace (main (world_ok identity4) argv_alias) in
  result (main (world_ok identity4) argv_alias) = inr tt /\
  opened_stores t = [VStr "out/round2_aligned_round.zarr"; VStr "move.zarr"] /\
  open_modes t = ["r"; "r"] /\
  write_paths t
    = ["out/round2_deformation_field.zarr"; "out/round2_aligned_round.zarr"] /\
  In (VStr "out/round2_aligned_round.zarr") (opened_stores t) /\
  In "out/round2_aligned_round.zarr" (write_paths t).
Proof. vm_compute. repeat split; tauto. Qed.

(** C8, amended: the driver opens zarr stores in mode ['r'] only, and only
    the two input stores; it does nothing with the two volumes but hand
    them to the two stages as the fixed and the moving volume.  The write
    paths of a run are the two output paths, which differ, each handed to
    one call; a run that returns has opened both inputs and handed over
    both outputs.  When neither input store is named by an output path, no
    store the run opened is a store the run writes to. *)
Theorem C8_volumes (w : World) (argv : command_line) :
  let args := parse_args (builtins_of w) parser argv in
  let t := trace (main w argv) in
  Forall (fun mode => mode = "r") (open_modes t) /\
  opened_stores t `prefix_of` input_stores args /\
  Forall (fun ev =>
    match ev with
    | piecewise_called a =>
        exists store_fix store_mov,
          opened_stores t = [store_fix; store_mov] /\
          zarr_open w store_fix "r" = inr (pw_fix a) /\
          zarr_open w store_mov "r" = inr (pw_mov a)
    | apply_called a =>
        exists store_fix store_mov,
          opened_stores t = [store_fix; store_mov] /\
          zarr_open w store_fix "r" = inr (ap_fix a) /\
          zarr_open w store_mov "r" = inr (ap_mov a)
    | _ => True
    end) t /\
  NoDup (write_paths t) /\
  write_paths t `prefix_of` output_paths args /\
  (Forall (fun p => ~ In (VStr p) (input_stores args)) (output_paths args) ->
   Forall (fun p => ~ In (VStr p) (opened_stores t)) (write_paths t)) /\
  (result (main w argv) = inr tt ->
   opened_stores t = input_stores args /\
   write_paths t = output_paths args /\
   length (write_paths t) = 2%nat).
Proof.
  cbv zeta. main_run w argv.
  { rewrite Hparse. unfold input_stores, output_paths. simpl.
    repeat split; first [apply prefix_nil | by constructor | discriminate]. }
  all: destruct (locals_of_Some _ _ Hl) as (Ha1 & Ha2 & _ & _ & _ & Ha3 & Ha4).
  all: rewrite Hparse; unfold input_stores, output_paths, attr.
  all: rewrite Ha1, Ha2, Ha3, Ha4.
  all: split; [repeat constructor|].
  all: split; [first [by exists [] | by eexists]|].
  all: split; [repeat (apply Forall_cons; split); try apply Forall_nil;
               try exact I; exists (fix_image_path l), (move_image_path l);
               by repeat split|].
  all: split;
    [first [apply NoDup_nil_2 | apply NoDup_singleton | apply output_paths_NoDup]|].
  all: split; [first [by exists [] | by eexists]|].
  all: split; [|intros Heq; first [discriminate Heq | by repeat split]].
  all: intros Hapart; try (by constructor).
  - inversion Hapart; subst. by constructor.
  - exact Hapart.
  - exact Hapart.
Qed.

Lemma C8_volumes_witness :
  Forall (fun p => ~ In (VStr p)
                      (opened_stores (trace (main (world_ok identity4) argv_paths))))
         (write_paths (trace (main (world_ok identity4) argv_paths))) /\
  write_paths (trace (main (world_ok identity4) argv_paths))
    = ["out/round2_deformation_field.zarr"; "out/round2_aligned_round.zarr"].
Proof.
  split; [|vm_compute; reflexivity].
  apply (C8_volumes (world_ok identity4) argv_paths).
  vm_compute. repeat constructor; intros [H|[H|[]]]; discriminate H.
Defined.

(* ===================================================================== *)
(** ** The pipeline components *)
(* ===================================================================== *)



(* ===================================================================== *)
(** ** The code run on concrete inputs *)
(* ===================================================================== *)

(** A run in which every call succeeds makes six steps and returns. *)
Example main_completes :
  List.map (fun ev => match ev with
                      | zarr_open_called store mode => "zarr.open " ++ format store
                      | np_loadtxt_called fname => "np.loadtxt " ++ format fname
                      | piecewise_called a => "align -> " ++ pw_write_path a
                      | Driver.printed line => "print " ++ line
                      | apply_called a => "transform -> " ++ ap_write_path a
                      end)
           (trace (main (world_ok identity4) argv_full))
    = ["zarr.open fix.zarr"; "zarr.open move.zarr"; "np.loadtxt affine.txt";
       "align -> out/round2_deformation_field.zarr"; "print deform done";
       "transform -> out/round2_aligned_round.zarr"] /\
  result (main (world_ok identity4) argv_full) = inr tt.
Proof. vm_compute. by split. Qed.

(** A usage error ends the run in the parser, before any call. *)
Example main_usage_error :
  main (world_ok identity4) [("--spacing", ["1"; "2"])] = Run [] (inl (SystemExit "2")).
Proof. reflexivity. Qed.

(** [--spacing] and [--blocksize] given on the command line reach the
    namespace converted, as lists. *)
Example parse_args_full :
  match parse_args builtins0 parser argv_full with
  | inl _ => False
  | inr args =>
      args !! "spacing" = Some (VList [VFloat 0.5; VFloat 1; VFloat 2]) /\
      args !! "blocksize" = Some (VList [VInt 64; VInt 128; VInt 128]) /\
      args !! "output_dir" = Some (VStr "out")
  end.
Proof. vm_compute. by repeat split. Qed.

(** LinearAlignmentTuning against a library that fails: the exception comes
    back, the error line is logged after the call, [affine_matrix] is unset. *)
Example LinearAlignmentTuning_fails :
  let '(self', r) := run_method (execute LinearAlignmentTuning) volalign_fails fresh in
  r = inl (RuntimeError "file not found") /\
  ports self' !! "affine_matrix" = None /\
  List.map (fun ev => match ev with
                      | called c => "call " ++ callee c
                      | logged line => line
                      end) (log self')
    = ["call linear_alignment_tuning";
       "Error during linear alignment tuning: file not found"].
Proof. vm_compute. by repeat split. Qed.

(** The same against a library that answers: the port holds the answer. *)
Example LinearAlignmentTuning_succeeds :
  let '(self', r) := run_method (execute LinearAlignmentTuning) volalign_ok fresh in
  r = inr tt /\ ports self' !! "affine_matrix" = Some identity4.
Proof. vm_compute. by repeat split. Qed.

(** ReorientVolume run again after a success, against a library that now
    fails: the port keeps the volume of the earlier run. *)
Example ReorientVolume_fails_after_success :
  let '(self1, _) := run_method (execute ReorientVolume) volalign_ok fresh in
  let '(self2, r) := run_method (execute ReorientVolume) volalign_fails self1 in
  r = inl (RuntimeError "file not found") /\
  ports self2 !! "reoriented_volume" = Some identity4.
Proof. vm_compute. by repeat split. Qed.


(* ===================================================================== *)
(** ** More about the argument parser *)
(* ===================================================================== *)

Section ArgparseShapes.

Variable b : builtins.
Variable p : list argument.

Lemma convert_ok t raw v : convert b t raw = Some v -> scalar_ok t v = true.
Proof.
  destruct t; simpl; [by intros [= <-]|..].
  - destruct (py_float b raw); simpl; [by intros [= <-]|done].
  - destruct (py_int b raw); simpl; [by intros [= <-]|done].
Qed.

(** What an occurrence stores has the shape its argument declares. *)
Lemma store_value_ok a raws v : store_value b a raws = Some v -> value_ok a v = true.
Proof.
  unfold store_value, value_ok. destruct (nargs a) as [n|].
  - destruct (Nat.eqb (length raws) n) eqn:En; [|done].
    destruct (mapM (convert b (type_ a)) raws) as [l|] eqn:Em; simpl; [|done].
    intros [= <-]. apply mapM_Some_1 in Em.
    apply Nat.eqb_eq in En. rewrite <- (Forall2_length _ _ _ Em), En, Nat.eqb_refl.
    simpl. clear En. induction Em as [|raw v' raws' l' Hc _ IH]; [done|].
    simpl. rewrite (convert_ok _ _ _ Hc). exact IH.
  - destruct raws as [|raw [|]]; try done. apply convert_ok.
Qed.

(** Parsing two command lines one after the other is parsing the second
    from where the first one ended. *)
Lemma parse_known_app argv1 argv2 :
  forall ns : gmap string value,
    parse_known b p (argv1 ++ argv2)%list ns =
    match parse_known b p argv1 ns with
    | inl e => inl e
    | inr ns1 => parse_known b p argv2 ns1
    end.
Proof.
  induction argv1 as [|[opt raws] rest IH]; intros ns; simpl; [done|].
  destruct (String.eqb opt "-h" || String.eqb opt "--help"); [done|].
  destruct (find_argument p opt) as [a|]; [|done].
  by destruct (store_value b a raws).
Qed.

(** The parser stops with [SystemExit] and nothing else. *)
Lemma parse_known_exits argv :
  forall (ns : gmap string value) e,
    parse_known b p argv ns = inl e -> e = SystemExit "0" \/ e = SystemExit "2".
Proof.
  induction argv as [|[opt raws] rest IH]; intros ns e; simpl; [done|].
  destruct (String.eqb opt "-h" || String.eqb opt "--help"); [intros [= <-]; by left|].
  destruct (find_argument p opt) as [a|]; [|intros [= <-]; by right].
  destruct (store_value b a raws); [apply IH|intros [= <-]; by right].
Qed.

(** One rejected occurrence or one request for help, anywhere on the
    command line, and the parser does not return. *)
Lemma parse_known_stops argv :
  forall ns : gmap string value,
    Exists (fun o => rejected b p o \/ asks_help o) argv ->
    exists e, parse_known b p argv ns = inl e.
Proof.
  induction argv as [|[opt raws] rest IH]; intros ns Hex; [by inversion Hex|].
  simpl.
  destruct (String.eqb opt "-h" || String.eqb opt "--help") eqn:Eh; [by eexists|].
  destruct (find_argument p opt) as [a|] eqn:Ef; [|by eexists].
  destruct (store_value b a raws) as [v|] eqn:Es; [|by eexists].
  apply IH. inversion Hex as [? ? [Hrej|[Hh|Hh]]|]; subst; [| | |done].
  - unfold rejected in Hrej. simpl in Hrej. rewrite Ef in Hrej. congruence.
  - simpl in Hh. subst opt. done.
  - simpl in Hh. subst opt. done.
Qed.



(** Being [shaped] is an invariant of parsing, when no two arguments of the
    parser share an attribute. *)
Lemma parse_known_shaped argv :
  (forall a a', In a p -> In a' p -> dest a = dest a' -> a = a') ->
  forall ns ns' : gmap string value,
    shaped p ns -> parse_known b p argv ns = inr ns' -> shaped p ns'.
Proof.
  intros Hinj. induction argv as [|[opt raws] rest IH]; intros ns ns' Hsh; simpl.
  - by intros [= <-].
  - destruct (String.eqb opt "-h" || String.eqb opt "--help"); [done|].
    destruct (find_argument p opt) as [a0|] eqn:Ef; [|done].
    destruct (store_value b a0 raws) as [v0|] eqn:Es; [|done].
    apply IH. apply find_argument_Some in Ef as [Hin0 _].
    intros a Hin. destruct (decide (dest a0 = dest a)) as [Heq|Hne].
    + rewrite (Hinj _ _ Hin0 Hin Heq) in *. exists v0.
      rewrite lookup_insert_eq. split; [done|]. right. by eapply store_value_ok.
    + rewrite lookup_insert_ne by done. by apply Hsh.
Qed.

End ArgparseShapes.

(* ===================================================================== *)
(** ** More about the driver's command line *)
(* ===================================================================== *)

(** No two arguments of the driver's parser share an attribute. *)
Lemma parser_dest_inj (a a' : argument) :
  In a parser -> In a' parser -> dest a = dest a' -> a = a'.
Proof.
  unfold parser. simpl. intros Ha Ha'.
  repeat (destruct Ha as [<-|Ha]; [|]); try contradiction.
  all: repeat (destruct Ha' as [<-|Ha']; [|]); try contradiction.
  all: by intros [=].
Qed.

Lemma defaults_shaped : shaped parser (defaults parser).
Proof.
  intros a Ha. unfold parser in Ha. simpl in Ha.
  repeat (destruct Ha as [<-|Ha]; [eexists; split; [reflexivity|by left]|]).
  contradiction.
Qed.

Lemma parse_args_shaped (b : builtins) (argv : command_line) (args : Namespace) :
  parse_args b parser argv = inr args -> shaped parser args.
Proof.
  apply parse_known_shaped; [apply parser_dest_inj|apply defaults_shaped].
Qed.



(** What [shaped] says about the two triples and the five paths. *)
Lemma shaped_spacing (args : Namespace) :
  shaped parser args ->
  exists s, args !! "spacing" = Some s /\ is_float_triple s = true.
Proof.
  intros Hsh.
  destruct (Hsh (add_argument "--spacing" (Some 3%nat) type_float
                   (VList [VFloat 0.1507417; VFloat 0.1507417; VFloat 0.1507417])))
    as (v & Hv & Hok); [simpl; tauto|].
  exists v. split; [exact Hv|]. destruct Hok as [->|Hok]; [done|].
  unfold value_ok in Hok. simpl in Hok.
  destruct v as [| | | | |l| | | |]; try done.
  destruct l as [|[] [|[] [|[] [|]]]]; done.
Qed.

Lemma shaped_blocksize (args : Namespace) :
  shaped parser args ->
  exists s, args !! "blocksize" = Some s /\ is_int_triple s = true.
Proof.
  intros Hsh.
  destruct (Hsh (add_argument "--blocksize" (Some 3%nat) type_int
                   (VList [VInt 512; VInt 512; VInt 512])))
    as (v & Hv & Hok); [simpl; tauto|].
  exists v. split; [exact Hv|]. destruct Hok as [->|Hok]; [done|].
  unfold value_ok in Hok. simpl in Hok.
  destruct v as [| | | | |l| | | |]; try done.
  destruct l as [|[] [|[] [|[] [|]]]]; done.
Qed.

Lemma shaped_path (args : Namespace) (opt : string) :
  In opt ["--fix_image_path"; "--move_image_path"; "--init_transform_path";
          "--output_dir"; "--output_name"] ->
  shaped parser args ->
  exists v, args !! lstrip_dash opt = Some v /\ is_str_or_None v = true.
Proof.
  intros Hin Hsh.
  destruct (Hsh (add_argument opt None type_str VNone)) as (v & Hv & Hok).
  { simpl in Hin. unfold parser. simpl.
    repeat (destruct Hin as [<-|Hin]; [tauto|]). contradiction. }
  exists v. split.
  - simpl in Hin. repeat (destruct Hin as [<-|Hin]; [exact Hv|]). contradiction.
  - destruct Hok as [->|Hok]; [done|]. by destruct v.
Qed.

(** X2: whatever the command line, a distributed stage that is dispatched
    is given, as the spacing of each volume, an array of exactly three
    floats and, as the block size, a list of exactly three ints. *)
Theorem X2_spacing_and_blocksize_shape (w : World) (argv : command_line) :
  Forall (fun ev =>
    match ev with
    | piecewise_called a =>
        (exists s, pw_fix_spacing a = np_array s /\ pw_mov_spacing a = np_array s /\
                   is_float_triple s = true) /\
        is_int_triple (pw_blocksize a) = true
    | apply_called a =>
        (exists s, ap_fix_spacing a = np_array s /\ ap_mov_spacing a = np_array s /\
                   is_float_triple s = true) /\
        is_int_triple (ap_blocksize a) = true
    | _ => True
    end) (trace (main w argv)).
Proof.
  main_run w argv; [constructor|..].
  all: pose proof (parse_args_shaped _ _ _ Hparse) as Hsh.
  all: destruct (shaped_spacing _ Hsh) as (s & Hs & Hfs).
  all: destruct (shaped_blocksize _ Hsh) as (k & Hk & Hik).
  all: destruct (locals_of_Some _ _ Hl) as (_ & _ & (s' & Hs' & Hsl) & Hbl & _).
  all: rewrite Hs in Hs'; rewrite Hk in Hbl.
  all: inversion Hs'; inversion Hbl; subst s'.
  all: repeat (apply Forall_cons; split); try apply Forall_nil; try exact I.
  all: simpl; split; [exists s; by rewrite Hsl|congruence].
Qed.

(* ===================================================================== *)
(** ** Options that are given and options that are left out *)
(* ===================================================================== *)

Section ArgparseGiven.

Variable b : builtins.
Variable p : list argument.
Hypothesis dest_inj :
  forall a a', In a p -> In a' p -> dest a = dest a' -> a = a'.

(** A value of the declared shape, once stored, is only ever replaced by
    another one. *)
Lemma parse_known_keeps_shape argv (a : argument) :
  In a p ->
  forall ns ns' : gmap string value,
    (exists v, ns !! dest a = Some v /\ value_ok a v = true) ->
    parse_known b p argv ns = inr ns' ->
    exists v, ns' !! dest a = Some v /\ value_ok a v = true.
Proof.
  intros Ha. induction argv as [|[opt raws] rest IH]; intros ns ns' Hv; simpl.
  - by intros [= <-].
  - destruct (String.eqb opt "-h" || String.eqb opt "--help"); [done|].
    destruct (find_argument p opt) as [a0|] eqn:Ef; [|done].
    destruct (store_value b a0 raws) as [v0|] eqn:Es; [|done].
    apply IH. apply find_argument_Some in Ef as [Hin0 _].
    destruct (decide (dest a0 = dest a)) as [Heq|Hne].
    + rewrite (dest_inj _ _ Hin0 Ha Heq) in *. exists v0.
      rewrite lookup_insert_eq. split; [done|]. by eapply store_value_ok.
    + by rewrite lookup_insert_ne.
Qed.

(** An option that occurs on the command line leaves a value of the shape
    its argument declares. *)
Lemma parse_known_given argv (a : argument) :
  find_argument p (option_string a) = Some a ->
  forall ns ns' : gmap string value,
    Exists (fun o => o.1 = option_string a) argv ->
    parse_known b p argv ns = inr ns' ->
    exists v, ns' !! dest a = Some v /\ value_ok a v = true.
Proof.
  intros Hfind. pose proof (find_argument_Some _ _ _ Hfind) as [Ha _].
  induction argv as [|[opt raws] rest IH]; intros ns ns' Hex; [by inversion Hex|].
  simpl.
  destruct (String.eqb opt "-h" || String.eqb opt "--help"); [done|].
  destruct (find_argument p opt) as [a0|] eqn:Ef; [|done].
  destruct (store_value b a0 raws) as [v0|] eqn:Es; [|done].
  destruct (decide (opt = option_string a)) as [->|Hne].
  - rewrite Hfind in Ef. injection Ef as <-.
    apply parse_known_keeps_shape; [done|].
    exists v0. rewrite lookup_insert_eq. split; [done|]. by eapply store_value_ok.
  - apply IH. by inversion Hex; subst.
Qed.

End ArgparseGiven.

(** Each of the five path attributes holds a [str] or [None]: [None]
    when its option is left out, a [str] when it is given. *)
Lemma path_options (b : builtins) (argv : command_line) (args : Namespace) :
  parse_args b parser argv = inr args ->
  Forall (fun k =>
    exists v, args !! k = Some v /\
              is_str_or_None v = true /\
              (omits argv ("--" ++ k) -> v = VNone) /\
              (Exists (fun o => o.1 = "--" ++ k) argv -> exists s, v = VStr s))
    ["fix_image_path"; "move_image_path"; "init_transform_path";
     "output_dir"; "output_name"].
Proof.
  intros Hp. pose proof (parse_args_shaped _ _ _ Hp) as Hsh.
  assert (Hone : forall opt,
    In opt ["--fix_image_path"; "--move_image_path"; "--init_transform_path";
            "--output_dir"; "--output_name"] ->
    exists v, args !! lstrip_dash opt = Some v /\
              is_str_or_None v = true /\
              (omits argv opt -> v = VNone) /\
              (Exists (fun o => o.1 = opt) argv -> exists s, v = VStr s)).
  { intros opt Hin.
    destruct (shaped_path args opt Hin Hsh) as (v & Hv & Hs).
    exists v. split; [exact Hv|]. split; [exact Hs|]. split.
    - intros Hom. unfold parse_args in Hp.
      assert (Hd : args !! lstrip_dash opt = Some VNone).
      { simpl in Hin.
        repeat (destruct Hin as [<-|Hin];
                [exact (eq_trans
                          (parse_known_untouched b parser argv _ _ _
                             (Forall_impl _ _ _ Hom
                                (fun o Hne a Hf Hd =>
                                   Hne (eq_trans (parser_dest _ _ Hf)
                                                 (f_equal (String.append "--") Hd))))
                             Hp)
                          ltac:(vm_compute; reflexivity))|]).
        contradiction. }
      congruence.
    - intros Hex.
      assert (Hf : find_argument parser opt = Some (add_argument opt None type_str VNone)).
      { simpl in Hin. repeat (destruct Hin as [<-|Hin]; [reflexivity|]). contradiction. }
      destruct (parse_known_given b parser parser_dest_inj argv
                  (add_argument opt None type_str VNone) Hf _ _ Hex Hp)
        as (v' & Hv' & Hok).
      change (dest (add_argument opt None type_str VNone))
        with (dash_to_underscore (lstrip_dash opt)) in Hv'.
      assert (Hsame : dash_to_underscore (lstrip_dash opt) = lstrip_dash opt).
      { simpl in Hin. repeat (destruct Hin as [<-|Hin]; [reflexivity|]). contradiction. }
      rewrite Hsame, Hv in Hv'. injection Hv' as <-.
      unfold value_ok in Hok. simpl in Hok. destruct v; try discriminate Hok.
      by eexists. }
  repeat (apply Forall_cons; split); [..|apply List.Forall_nil].
  - apply (Hone "--fix_image_path"). simpl; tauto.
  - apply (Hone "--move_image_path"). simpl; tauto.
  - apply (Hone "--init_transform_path"). simpl; tauto.
  - apply (Hone "--output_dir"). simpl; tauto.
  - apply (Hone "--output_name"). simpl; tauto.
Qed.

(** X3: each of the five path attributes holds a [str] or [None] -- [None]
    when its option was left out, a [str] when it was given.  The stores a
    run opens are the two input attributes, in this order; the file it
    loads is the attribute [init_transform_path]; its write paths are the
    two f-strings over the attributes [output_dir] and [output_name]; and a
    run that returns has opened both, loaded one file and written both. *)
Theorem X3_paths_are_str_or_None (w : World) (argv : command_line) :
  let args := parse_args (builtins_of w) parser argv in
  let t := trace (main w argv) in
  (returned args = true ->
   Forall (fun k =>
     exists v, attr args k = Some v /\
               is_str_or_None v = true /\
               (omits argv ("--" ++ k) -> v = VNone) /\
               (Exists (fun o => o.1 = "--" ++ k) argv -> exists s, v = VStr s))
     ["fix_image_path"; "move_image_path"; "init_transform_path";
      "output_dir"; "output_name"]) /\
  opened_stores t `prefix_of` input_stores args /\
  Forall (fun fname => attr args "init_transform_path" = Some fname) (loaded_files t) /\
  write_paths t `prefix_of` output_paths args /\
  (result (main w argv) = inr tt ->
   opened_stores t = input_stores args /\
   length (loaded_files t) = 1%nat /\
   write_paths t = output_paths args).
Proof.
  cbv zeta. split.
  { destruct (parse_args (builtins_of w) parser argv) as [e|args] eqn:Hp;
      [intros Hr; discriminate Hr|].
    intros _. exact (path_options _ _ _ Hp). }
  main_run w argv.
  { rewrite Hparse. unfold input_stores, output_paths. simpl.
    repeat split; first [apply prefix_nil | by constructor | discriminate]. }
  all: destruct (locals_of_Some _ _ Hl) as (Ha1 & Ha2 & _ & _ & Ha5 & Ha3 & Ha4).
  all: rewrite Hparse; unfold input_stores, output_paths, attr.
  all: rewrite Ha1, Ha2, Ha3, Ha4.
  all: split; [first [by exists [] | by eexists]|].
  all: split; [by repeat constructor|].
  all: split; [first [by exists [] | by eexists]|].
  all: intros Heq; first [discriminate Heq | by repeat split].
Qed.

(** X4: an occurrence that the parser rejects (an option it does not have,
    a wrong number of words, a word that does not convert) or a request for
    help, anywhere on the command line, ends the run with [SystemExit]
    before the driver opens a store or calls a library. *)
Theorem X4_usage_error_makes_no_call (w : World) (argv : command_line) :
  Exists (fun o => rejected (builtins_of w) parser o \/ asks_help o) argv ->
  exists e, main w argv = Run [] (inl e) /\
            (e = SystemExit "0" \/ e = SystemExit "2").
Proof.
  intros Hex.
  destruct (parse_known_stops (builtins_of w) parser argv (defaults parser) Hex)
    as [e He].
  exists e. split.
  - unfold main, parse_args. by rewrite He.
  - by apply (parse_known_exits _ _ _ _ _ He).
Qed.

Lemma X4_usage_error_makes_no_call_witness :
  exists e, main (world_ok identity4) (argv_paths ++ [("--verbose", [])])%list
              = Run [] (inl e) /\
            (e = SystemExit "0" \/ e = SystemExit "2").
Proof.
  apply (X4_usage_error_makes_no_call (world_ok identity4)).
  unfold argv_paths. simpl.
  do 5 apply Exists_cons_tl. apply Exists_cons_hd. left. exact I.
Defined.

(** X5: [--spacing] and [--blocksize] take exactly three words: an
    occurrence of either with another number of words ends the run with
    exit status 0 or 2 before any call. *)
Theorem X5_three_words (w : World) (argv : command_line) (opt : string)
        (raws : list string) :
  opt = "--spacing" \/ opt = "--blocksize" ->
  In (opt, raws) argv ->
  length raws ≠ 3%nat ->
  exists e, main w argv = Run [] (inl e) /\
            (e = SystemExit "0" \/ e = SystemExit "2").
Proof.
  intros Hopt Hin Hlen.
  destruct (parse_known_stops (builtins_of w) parser argv (defaults parser))
    as [e He].
  { apply Exists_exists. exists (opt, raws). split; [by apply list_elem_of_In|].
    left. unfold rejected, store_value. simpl.
    destruct Hopt as [-> | ->]; simpl.
    all: destruct (Nat.eqb (length raws) 3) eqn:E; [|done].
    all: by apply Nat.eqb_eq in E. }
  exists e. split.
  - unfold main, parse_args. by rewrite He.
  - by apply (parse_known_exits _ _ _ _ _ He).
Qed.

Lemma X5_three_words_witness :
  exists e, main (world_ok identity4) (argv_paths ++ [("--spacing", ["1"; "2"])])%list
              = Run [] (inl e) /\
            (e = SystemExit "0" \/ e = SystemExit "2").
Proof.
  apply (X5_three_words (world_ok identity4) _ "--spacing" ["1"; "2"]).
  - by left.
  - unfold argv_paths. simpl. tauto.
  - simpl. lia.
Defined.

(** X6: the spacing that reaches the stages is the one of the last
    [--spacing] on the command line: when the command line ends with
    [--spacing r1 r2 r3], every stage that is dispatched is given the array
    of the three floats these words convert to, whatever came before; the
    alignment stage is dispatched with it once the matrix has loaded, and a
    run that returns has dispatched both stages with it. *)
Theorem X6_last_spacing_wins (w : World) (argv0 : command_line)
        (r1 r2 r3 : string) (x1 x2 x3 : float) (args : Namespace) :
  let argv := (argv0 ++ [("--spacing", [r1; r2; r3])])%list in
  parse_args (builtins_of w) parser argv = inr args ->
  py_float (builtins_of w) r1 = Some x1 ->
  py_float (builtins_of w) r2 = Some x2 ->
  py_float (builtins_of w) r3 = Some x3 ->
  let s := np_array (VList [VFloat x1; VFloat x2; VFloat x3]) in
  Forall (fun ev =>
    match ev with
    | piecewise_called a => pw_fix_spacing a = s /\ pw_mov_spacing a = s
    | apply_called a => ap_fix_spacing a = s /\ ap_mov_spacing a = s
    | _ => True
    end) (trace (main w argv)) /\
  (forall path affine,
     In (np_loadtxt_called path) (trace (main w argv)) ->
     np_loadtxt w path = inr affine ->
     exists a, In (piecewise_called a) (trace (main w argv)) /\
               pw_fix_spacing a = s /\ pw_mov_spacing a = s) /\
  (result (main w argv) = inr tt ->
   exists a b,
     dispatched (trace (main w argv)) = [piecewise_called a; apply_called b] /\
     pw_fix_spacing a = s /\ pw_mov_spacing a = s /\
     ap_fix_spacing b = s /\ ap_mov_spacing b = s).
Proof.
  cbv zeta. intros Hp H1 H2 H3.
  assert (Hs : args !! "spacing" = Some (VList [VFloat x1; VFloat x2; VFloat x3])).
  { unfold parse_args in Hp. rewrite parse_known_app in Hp.
    destruct (parse_known (builtins_of w) parser argv0 (defaults parser))
      as [e|ns1]; [done|].
    simpl in Hp. unfold store_value in Hp. simpl in Hp.
    rewrite H1, H2, H3 in Hp. simpl in Hp. inversion Hp; subst.
    apply lookup_insert_eq. }
  match goal with |- ?F /\ _ => assert (HF : F) end.
  { main_run w (argv0 ++ [("--spacing", [r1; r2; r3])])%list; [constructor|..].
    all: rewrite Hp in Hparse; inversion Hparse; subst args0.
    all: destruct (locals_of_Some _ _ Hl) as (_ & _ & (s' & Hs' & Hsl) & _).
    all: rewrite Hs in Hs'; inversion Hs'; subst s'.
    all: repeat (apply Forall_cons; split); try apply Forall_nil; try exact I.
    all: by simpl. }
  split; [exact HF|]. rewrite Forall_forall in HF. split.
  - intros path affine Hin Hret.
    destruct (main_aligns w _ path affine Hin Hret)
      as (args' & l & fix_image & move_image & _ & _ & _ & Ha).
    eexists. split; [exact Ha|]. apply list_elem_of_In in Ha. exact (HF _ Ha).
  - intros Hres.
    destruct (main_returns_dispatched w _ Hres) as (a & b & Hd & Ha & Hb & _).
    pose proof (HF _ Ha) as (? & ?). pose proof (HF _ Hb) as (? & ?).
    exists a, b. by repeat split.
Qed.

Lemma X6_last_spacing_wins_witness :
  let argv := (argv_full ++ [("--spacing", ["2"; "2"; "1"])])%list in
  let s := np_array (VList [VFloat 2; VFloat 2; VFloat 1]) in
  result (main (world_ok identity4) argv) = inr tt /\
  exists a b,
    dispatched (trace (main (world_ok identity4) argv))
      = [piecewise_called a; apply_called b] /\
    pw_fix_spacing a = s /\ pw_mov_spacing a = s /\
    ap_fix_spacing b = s /\ ap_mov_spacing b = s.
Proof.
  cbv zeta.
  assert (Hres : result (main (world_ok identity4)
                           (argv_full ++ [("--spacing", ["2"; "2"; "1"])])%list)
                 = inr tt) by (vm_compute; reflexivity).
  split; [exact Hres|].
  assert (Hok : returned (parse_args builtins0 parser
                            (argv_full ++ [("--spacing", ["2"; "2"; "1"])])%list)
                = true)
    by (vm_compute; reflexivity).
  destruct (parse_args builtins0 parser
              (argv_full ++ [("--spacing", ["2"; "2"; "1"])])%list)
    as [e|args] eqn:E.
  - discriminate Hok.
  - exact (proj2 (proj2 (X6_last_spacing_wins (world_ok identity4) argv_full
                           "2" "2" "1" 2%float 2%float 1%float args
                           E eq_refl eq_refl eq_refl)) Hres).
Defined.

(* ===================================================================== *)
(** ** More about the order and the arguments of the driver's calls *)
(* ===================================================================== *)

(** X7: the steps of a run are the first steps of the script -- open, open,
    load, align, print, transform -- in this order, with none left out and
    none repeated; a run that returns has done all six. *)
Theorem X7_script_order (w : World) (argv : command_line) :
  List.map step_of (trace (main w argv)) `prefix_of` script /\
  (result (main w argv) = inr tt -> List.map step_of (trace (main w argv)) = script).
Proof.
  unfold script. main_run w argv.
  all: split; [|intros Heq; first [discriminate Heq | reflexivity]].
  - by eexists.
  - by exists [opens; loads; aligns; prints; transforms].
  - by exists [loads; aligns; prints; transforms].
  - by exists [aligns; prints; transforms].
  - by exists [prints; transforms].
  - by exists [].
  - by exists [].
Qed.

(** X8: the line "deform done" is printed exactly in the runs whose
    alignment stage returned. *)
Theorem X8_deform_done (w : World) (argv : command_line) :
  printed_lines (trace (main w argv)) = ["deform done"] <->
  exists a, In (piecewise_called a) (trace (main w argv)) /\
            returned (distributed_piecewise_alignment_pipeline w a) = true.
Proof.
  main_run w argv.
  all: split; [try by intros [=]|].
  all: try (intros (a & Hin & Hret); simpl in Hin;
            repeat (destruct Hin as [Heq|Hin]; try discriminate Heq);
            try contradiction).
  - inversion Heq; subst a. rewrite H2 in Hret. discriminate Hret.
  - intros _. eexists. split; [simpl; eauto 6|]. by rewrite H2.
  - reflexivity.
  - intros _. eexists. split; [simpl; eauto 6|]. by rewrite H2.
  - reflexivity.
Qed.

(** X9: the transform stage is called on what the alignment stage of the
    same run was called on: the same two volumes, the same two spacings,
    the same block size.  It is dispatched so once the alignment stage has
    returned, and a run that returns has dispatched the two. *)
Theorem X9_transform_reuses_alignment_inputs (w : World) (argv : command_line) :
  let t := trace (main w argv) in
  Forall (fun ev =>
    match ev with
    | apply_called a =>
        exists alignment,
          In (piecewise_called alignment) t /\
          ap_fix a = pw_fix alignment /\
          ap_mov a = pw_mov alignment /\
          ap_fix_spacing a = pw_fix_spacing alignment /\
          ap_mov_spacing a = pw_mov_spacing alignment /\
          ap_blocksize a = pw_blocksize alignment
    | _ => True
    end) t /\
  (forall a deform,
     In (piecewise_called a) t ->
     distributed_piecewise_alignment_pipeline w a = inr deform ->
     exists b,
       In (apply_called b) t /\
       ap_fix b = pw_fix a /\
       ap_mov b = pw_mov a /\
       ap_fix_spacing b = pw_fix_spacing a /\
       ap_mov_spacing b = pw_mov_spacing a /\
       ap_blocksize b = pw_blocksize a) /\
  (result (main w argv) = inr tt ->
   exists a b,
     dispatched t = [piecewise_called a; apply_called b] /\
     ap_fix b = pw_fix a /\
     ap_mov b = pw_mov a /\
     ap_fix_spacing b = pw_fix_spacing a /\
     ap_mov_spacing b = pw_mov_spacing a /\
     ap_blocksize b = pw_blocksize a).
Proof.
  cbv zeta. split; [|split].
  - main_run w argv; [constructor|..].
    all: repeat (apply Forall_cons; split); try apply Forall_nil; try exact I.
    all: exists (alignment_call l fix_image move_image affine); simpl; tauto.
  - intros a deform Hin Hret.
    destruct (main_transforms w argv a deform Hin Hret)
      as (args & l & fix_image & move_image & affine & _ & _ & _ & -> & Hb).
    eexists. split; [exact Hb|]. by repeat split.
  - intros Hres.
    destruct (main_returns w argv Hres)
      as (args & l & fix_image & move_image & affine & deform
          & _ & _ & _ & _ & _ & _ & ->).
    eexists _, _. split; [reflexivity|]. by repeat split.
Qed.

(** X10: the two stages run on different clusters: the alignment stage asks
    for 16 workers of 70GB, the transform stage for 8 workers of 140GB; both
    switch the scheduler's worker time-to-live off and set the allocator's
    trim threshold to 65536.  The alignment stage is dispatched so once the
    matrix has loaded, the transform stage once the alignment stage has
    returned, and a run that returns has dispatched both. *)
Theorem X10_stage_resources (w : World) (argv : command_line) :
  let alignment_resources (cfg : value) :=
    getitem cfg "n_workers" = Some (VInt 16) /\
    getitem cfg "memory_limit" = Some (VStr "70GB") /\
    (getitem cfg "config"
       ≫= fun c => getitem c "distributed.scheduler.worker-ttl") = Some VNone /\
    pre_spawn_environ cfg "MALLOC_TRIM_THRESHOLD_" = Some (VInt 65536) in
  let transform_resources (cfg : value) :=
    getitem cfg "n_workers" = Some (VInt 8) /\
    getitem cfg "memory_limit" = Some (VStr "140GB") /\
    (getitem cfg "config"
       ≫= fun c => getitem c "distributed.scheduler.worker-ttl") = Some VNone /\
    pre_spawn_environ cfg "MALLOC_TRIM_THRESHOLD_" = Some (VInt 65536) in
  Forall (fun ev =>
    match ev with
    | piecewise_called a => alignment_resources (pw_cluster_kwargs a)
    | apply_called a => transform_resources (ap_cluster_kwargs a)
    | _ => True
    end) (trace (main w argv)) /\
  (forall path affine,
     In (np_loadtxt_called path) (trace (main w argv)) ->
     np_loadtxt w path = inr affine ->
     exists a, In (piecewise_called a) (trace (main w argv)) /\
               alignment_resources (pw_cluster_kwargs a)) /\
  (forall a deform,
     In (piecewise_called a) (trace (main w argv)) ->
     distributed_piecewise_alignment_pipeline w a = inr deform ->
     exists b, In (apply_called b) (trace (main w argv)) /\
               transform_resources (ap_cluster_kwargs b)) /\
  (result (main w argv) = inr tt ->
   exists a b,
     dispatched (trace (main w argv)) = [piecewise_called a; apply_called b] /\
     alignment_resources (pw_cluster_kwargs a) /\
     transform_resources (ap_cluster_kwargs b)).
Proof.
  cbv zeta.
  match goal with |- ?F /\ _ => assert (HF : F) end.
  { main_run w argv; [constructor|..].
    all: repeat (apply Forall_cons; split); try apply Forall_nil; try exact I.
    all: by repeat split. }
  split; [exact HF|]. rewrite Forall_forall in HF. split; [|split].
  - intros path affine Hin Hret.
    destruct (main_aligns w argv path affine Hin Hret)
      as (args & l & fix_image & move_image & _ & _ & _ & Ha).
    eexists. split; [exact Ha|]. apply list_elem_of_In in Ha. exact (HF _ Ha).
  - intros a deform Hin Hret.
    destruct (main_transforms w argv a deform Hin Hret)
      as (args & l & fix_image & move_image & affine & _ & _ & _ & _ & Hb).
    eexists. split; [exact Hb|]. apply list_elem_of_In in Hb. exact (HF _ Hb).
  - intros Hres.
    destruct (main_returns_dispatched w argv Hres) as (a & b & Hd & Ha & Hb & _).
    exists a, b. split; [exact Hd|]. split; [exact (HF _ Ha)|exact (HF _ Hb)].
Qed.

(** What an option left out leaves in the namespace: the default. *)
Lemma omitted_is_default (w : World) (argv : command_line) (args : Namespace)
      (k : string) :
  omits argv ("--" ++ k) ->
  parse_args (builtins_of w) parser argv = inr args ->
  args !! k = defaults parser !! k.
Proof. intros Hom Hp. exact (omits_untouched w argv k _ _ Hom Hp). Qed.

(** The default of each of the five path options is [None]. *)
Lemma default_path_is_None (k : string) :
  In k ["fix_image_path"; "move_image_path"; "init_transform_path";
        "output_dir"; "output_name"] ->
  defaults parser !! k = Some VNone.
Proof.
  simpl. intros Hin.
  repeat (destruct Hin as [<-|Hin]; [vm_compute; reflexivity|]). contradiction.
Qed.

(** X11: no path option is required.  When [--fix_image_path],
    [--move_image_path] and [--init_transform_path] are left out, the driver
    does not stop: it calls [zarr.open] and [np.loadtxt] with [None]. *)
Theorem X11_omitted_inputs_are_None (w : World) (argv : command_line) :
  omits argv "--fix_image_path" ->
  omits argv "--move_image_path" ->
  omits argv "--init_transform_path" ->
  Forall (fun ev =>
    match ev with
    | zarr_open_called store _ => store = VNone
    | np_loadtxt_called fname => fname = VNone
    | _ => True
    end) (trace (main w argv)) /\
  (returned (parse_args (builtins_of w) parser argv) = true ->
   head (trace (main w argv)) = Some (zarr_open_called VNone "r")).
Proof.
  intros Hf Hm Hi. main_run w argv.
  { rewrite Hparse. split; [constructor|]. intros Hr. discriminate Hr. }
  all: destruct (locals_of_Some _ _ Hl) as (Ha1 & Ha2 & _ & _ & Ha3 & _ & _).
  all: rewrite (omitted_is_default w argv args "fix_image_path" Hf Hparse) in Ha1.
  all: rewrite (omitted_is_default w argv args "move_image_path" Hm Hparse) in Ha2.
  all: rewrite (omitted_is_default w argv args "init_transform_path" Hi Hparse) in Ha3.
  all: rewrite default_path_is_None in Ha1 by (simpl; tauto).
  all: rewrite default_path_is_None in Ha2 by (simpl; tauto).
  all: rewrite default_path_is_None in Ha3 by (simpl; tauto).
  all: injection Ha1 as Ha1; injection Ha2 as Ha2; injection Ha3 as Ha3.
  all: rewrite <- Ha1, <- ?Ha2, <- ?Ha3.
  all: split; [|reflexivity].
  all: repeat (apply Forall_cons; split); try apply Forall_nil; try exact I.
  all: reflexivity.
Qed.

Lemma X11_omitted_inputs_are_None_witness :
  Forall (fun ev =>
    match ev with
    | zarr_open_called store _ => store = VNone
    | np_loadtxt_called fname => fname = VNone
    | _ => True
    end) (trace (main (world_ok identity4) [("--output_dir", ["out"])])) /\
  (returned (parse_args (builtins_of (world_ok identity4)) parser
               [("--output_dir", ["out"])]) = true ->
   head (trace (main (world_ok identity4) [("--output_dir", ["out"])]))
     = Some (zarr_open_called VNone "r")).
Proof.
  apply (X11_omitted_inputs_are_None (world_ok identity4) [("--output_dir", ["out"])]).
  - unfold omits. repeat constructor; simpl; discriminate.
  - unfold omits. repeat constructor; simpl; discriminate.
  - unfold omits. repeat constructor; simpl; discriminate.
Defined.

(** X12: when [--output_dir] and [--output_name] are left out, the f-strings
    format [None]: the deformation field goes to
    [None/None_deformation_field.zarr] and the aligned round to
    [None/None_aligned_round.zarr]. *)
Theorem X12_omitted_outputs (w : World) (argv : command_line) :
  omits argv "--output_dir" ->
  omits argv "--output_name" ->
  write_paths (trace (main w argv))
    `prefix_of` ["None/None_deformation_field.zarr"; "None/None_aligned_round.zarr"] /\
  (result (main w argv) = inr tt ->
   write_paths (trace (main w argv))
     = ["None/None_deformation_field.zarr"; "None/None_aligned_round.zarr"]).
Proof.
  intros Hd Hn. main_run w argv.
  { split; [apply prefix_nil|]. intros Heq. discriminate Heq. }
  all: destruct (locals_of_Some _ _ Hl) as (_ & _ & _ & _ & _ & Ha1 & Ha2).
  all: rewrite (omitted_is_default w argv args "output_dir" Hd Hparse) in Ha1.
  all: rewrite (omitted_is_default w argv args "output_name" Hn Hparse) in Ha2.
  all: rewrite default_path_is_None in Ha1 by (simpl; tauto).
  all: rewrite default_path_is_None in Ha2 by (simpl; tauto).
  all: injection Ha1 as Ha1; injection Ha2 as Ha2.
  all: unfold alignment_call, transform_call, deformation_field_path,
         aligned_round_path; simpl; rewrite <- ?Ha1, <- ?Ha2; simpl.
  all: split; [|intros Heq; first [discriminate Heq | reflexivity]].
  - by eexists.
  - by eexists.
  - by eexists.
  - by exists ["None/None_aligned_round.zarr"].
  - by exists [].
  - by exists [].
Qed.

Lemma X12_omitted_outputs_witness :
  write_paths (trace (main (world_ok identity4) []))
    `prefix_of` ["None/None_deformation_field.zarr"; "None/None_aligned_round.zarr"] /\
  (result (main (world_ok identity4) []) = inr tt ->
   write_paths (trace (main (world_ok identity4) []))
     = ["None/None_deformation_field.zarr"; "None/None_aligned_round.zarr"]).
Proof.
  apply (X12_omitted_outputs (world_ok identity4) []); constructor.
Defined.

(** X13: the driver does not compare its output paths with its input
    paths.  When the fixed volume is the store named
    [D/N_aligned_round.zarr], the transform stage is dispatched, once the
    alignment stage has returned, with that very path as its write path:
    the path of a store the run has open as an input.  A run that returns
    has opened that store and written to it. *)
Theorem X13_output_path_may_be_an_input (w : World) (argv : command_line)
        (D N : string) :
  let args := parse_args (builtins_of w) parser argv in
  let t := trace (main w argv) in
  let aligned := D ++ "/" ++ N ++ "_aligned_round.zarr" in
  attr args "output_dir" = Some (VStr D) ->
  attr args "output_name" = Some (VStr N) ->
  attr args "fix_image_path" = Some (VStr aligned) ->
  Forall (fun ev =>
    match ev with
    | apply_called a =>
        ap_write_path a = aligned /\ In (zarr_open_called (VStr aligned) "r") t
    | _ => True
    end) t /\
  (forall a deform,
     In (piecewise_called a) t ->
     distributed_piecewise_alignment_pipeline w a = inr deform ->
     exists b, In (apply_called b) t /\
               ap_write_path b = aligned /\
               In (zarr_open_called (VStr aligned) "r") t) /\
  (result (main w argv) = inr tt ->
   In (VStr aligned) (opened_stores t) /\ In aligned (write_paths t)).
Proof.
  cbv zeta. intros Hd Hn Hf.
  match goal with |- ?F /\ _ => assert (HF : F) end.
  { main_run w argv; [constructor|..].
    all: rewrite Hparse in Hd, Hn, Hf; simpl in Hd, Hn, Hf.
    all: destruct (locals_of_Some _ _ Hl) as (Ha1 & _ & _ & _ & _ & Ha2 & Ha3).
    all: rewrite Hf in Ha1; rewrite Hd in Ha2; rewrite Hn in Ha3.
    all: injection Ha1 as Ha1; injection Ha2 as Ha2; injection Ha3 as Ha3.
    all: repeat (apply Forall_cons; split); try apply Forall_nil; try exact I.
    all: unfold transform_call, aligned_round_path; simpl;
         rewrite <- Ha1, <- Ha2, <- Ha3; simpl; tauto. }
  split; [exact HF|]. rewrite Forall_forall in HF. split.
  - intros a deform Hin Hret.
    destruct (main_transforms w argv a deform Hin Hret)
      as (args & l & fix_image & move_image & affine & _ & _ & _ & _ & Hb).
    eexists. split; [exact Hb|]. apply list_elem_of_In in Hb. exact (HF _ Hb).
  - intros Hres.
    destruct (main_returns w argv Hres)
      as (args & l & fix_image & move_image & affine & deform
          & Hp & Hl & _ & _ & _ & _ & Ht).
    rewrite Hp in Hd, Hn, Hf; simpl in Hd, Hn, Hf.
    destruct (locals_of_Some _ _ Hl) as (Ha1 & _ & _ & _ & _ & Ha2 & Ha3).
    rewrite Hf in Ha1; rewrite Hd in Ha2; rewrite Hn in Ha3.
    injection Ha1 as Ha1; injection Ha2 as Ha2; injection Ha3 as Ha3.
    rewrite Ht. unfold transform_call, aligned_round_path. simpl.
    rewrite <- Ha1, <- Ha2, <- Ha3. simpl. tauto.
Qed.

Lemma X13_output_path_may_be_an_input_witness :
  let t := trace (main (world_ok identity4) argv_alias) in
  result (main (world_ok identity4) argv_alias) = inr tt /\
  In (VStr "out/round2_aligned_round.zarr") (opened_stores t) /\
  In "out/round2_aligned_round.zarr" (write_paths t).
Proof.
  cbv zeta.
  assert (Hres : result (main (world_ok identity4) argv_alias) = inr tt)
    by (vm_compute; reflexivity).
  split; [exact Hres|].
  refine (proj2 (proj2 (X13_output_path_may_be_an_input (world_ok identity4)
                          argv_alias "out" "round2" _ _ _)) Hres).
  - vm_compute. reflexivity.
  - vm_compute. reflexivity.
  - vm_compute. reflexivity.
Defined.

(** In that run the transform stage is indeed dispatched. *)
Example alias_run_reaches_transform :
  List.map step_of (trace (main (world_ok identity4) argv_alias)) = script.
Proof. vm_compute. reflexivity. Qed.

(* ===================================================================== *)
(** ** More about the pipeline components *)
(* ===================================================================== *)

(** Runs one [execute], follows both answers of the library, and brings
    what was logged during the run into view. *)
Ltac executed_cases lib :=
  unfold executed; cbn;
  match goal with
  | |- context [lib ?c] =>
      let e := fresh "e" in
      let v := fresh "v" in
      let E := fresh "E" in
      destruct (lib c) as [e|v] eqn:E; cbn;
      [ destruct (isinstance_Exception e); cbn | ];
      rewrite <- ?app_assoc, drop_app_length; cbn
  end.

Ltac unfold_executes :=
  unfold execute, CreateBDVXML_execute, StitchTiles_execute, BlendTiles_execute,
    VoxelSpacingResample_execute, ApplyManualAlignment_execute,
    LinearAlignmentTuning_execute, ConvertZarrToTiff_execute,
    ConvertTiffToZarr_execute, DownsampleTiff_execute,
    StackTiffImages_execute, ReorientVolume_execute.



(** A port that holds 0 is not replaced by the default. *)
Example nchannels_zero_is_kept :
  exists c tail,
    executed CreateBDVXML volalign_ok (with_port "nchannels" (VInt 0) fresh)
      = called c :: tail /\
    keyword c "nchannels" = Some (VInt 0).
Proof. eexists _, _. split; vm_compute; reflexivity. Qed.

(** X15: ApplyManualAlignment reads the moving volume's path from the port
    [moving_volume_path] and the fixed volume's from [fixed_volume_path],
    and passes them to the library as [moving_slice_path] and
    [fixed_slice_path].  A port named [moving_slice_path], the name the
    docstring of the class lists, is not read: assigning it changes nothing
    in the call. *)
Theorem X15_moving_slice_path_is_not_a_port (lib : VolAlign) (self : component)
        (v : value) :
  exists c tail,
    executed ApplyManualAlignment lib self = called c :: tail /\
    keyword c "moving_slice_path" = Some (port_or self "moving_volume_path" VNone) /\
    keyword c "fixed_slice_path" = Some (port_or self "fixed_volume_path" VNone) /\
    calls (executed ApplyManualAlignment lib (with_port "moving_slice_path" v self))
      = [c].
Proof.
  unfold_executes. unfold executed, with_port. cbn.
  rewrite !lookup_insert_ne by done.
  match goal with
  | |- context [lib ?c] =>
      destruct (lib c) as [e|r] eqn:E; cbn;
      [ destruct (isinstance_Exception e); cbn | ];
      rewrite <- ?app_assoc, !drop_app_length; cbn
  end.
  all: eexists _, _; split; [reflexivity|]; unfold keyword, port_or; cbn.
  all: repeat split; try reflexivity.
  all: try by destruct (ports self !! "moving_volume_path") as [[]|].
  all: by destruct (ports self !! "fixed_volume_path") as [[]|].
Qed.

(** X16: BlendTiles declares the port [inverts] and never reads it: whatever
    it holds, the call into the library, what the component logs and how
    [execute] ends are the same. *)
Theorem X16_inverts_is_ignored (lib : VolAlign) (self : component) (v : value) :
  executed BlendTiles lib (with_port "inverts" v self) = executed BlendTiles lib self /\
  (run_method (execute BlendTiles) lib (with_port "inverts" v self)).2
    = (run_method (execute BlendTiles) lib self).2.
Proof.
  unfold_executes. unfold executed, with_port. cbn.
  rewrite !lookup_insert_ne by done.
  match goal with
  | |- context [lib ?c] =>
      destruct (lib c) as [e|r] eqn:E; cbn;
      [ destruct (isinstance_Exception e); cbn | ];
      rewrite <- ?app_assoc, !drop_app_length; cbn
  end.
  all: by split.
Qed.

(** What one [execute] does to the ports: nothing when it raises; when it
    returns, it assigns the library's answer to the output port of its
    class, if it has one. *)
Lemma execute_ports (c : component_class) (lib : VolAlign) (self : component) :
  let '(self', r) := run_method (execute c) lib self in
  match r with
  | inl _ => ports self' = ports self
  | inr _ => exists v, ports self' = foldr (fun p m => <[p := v]> m) (ports self)
                                            (out_ports c)
  end.
Proof.
  destruct c; unfold_executes; cbn;
    match goal with
    | |- context [lib ?c] =>
        destruct (lib c) as [e|v] eqn:E; cbn;
        [ destruct (isinstance_Exception e); cbn | ]
    end.
  all: try reflexivity.
  all: by eexists.
Qed.

(** X17: an output port is not cleared when [execute] starts.  When a
    component that has returned once is executed again and the library
    raises, its output port still holds the result of the earlier run. *)
Theorem X17_output_port_keeps_earlier_result (c : component_class)
        (lib1 lib2 : VolAlign) (self self1 self2 : component) (e : exn) (p : string) :
  In p (out_ports c) ->
  run_method (execute c) lib1 self = (self1, inr tt) ->
  run_method (execute c) lib2 self1 = (self2, inl e) ->
  exists v, ports self1 !! p = Some v /\ ports self2 !! p = Some v.
Proof.
  intros Hin H1 H2.
  pose proof (execute_ports c lib1 self) as P1. rewrite H1 in P1.
  pose proof (execute_ports c lib2 self1) as P2. rewrite H2 in P2.
  destruct P1 as [v P1]. exists v. rewrite P2, P1.
  destruct c; simpl in Hin; try contradiction.
  all: destruct Hin as [<-|[]]; simpl; split; apply lookup_insert_eq.
Qed.

Lemma X17_output_port_keeps_earlier_result_witness :
  exists v,
    ports (run_method (execute ReorientVolume) volalign_ok fresh).1
      !! "reoriented_volume" = Some v /\
    ports (run_method (execute ReorientVolume) volalign_fails
             (run_method (execute ReorientVolume) volalign_ok fresh).1).1
      !! "reoriented_volume" = Some v.
Proof.
  apply (X17_output_port_keeps_earlier_result ReorientVolume
           volalign_ok volalign_fails fresh _ _
           (RuntimeError "file not found") "reoriented_volume").
  - simpl. tauto.
  - vm_compute. reflexivity.
  - vm_compute. reflexivity.
Defined.

(** X18: one [execute] makes at most one call into the library -- there is
    no retry -- and logs at most one line.  Every class but CreateBDVXML
    makes exactly one call, whether it returns or raises; CreateBDVXML makes
    it unless its conversion before the [try] raises.  An [execute] that
    returns has made its call, and only BlendTiles has then logged no line. *)
Theorem X18_one_call_one_line (c : component_class) (lib : VolAlign)
        (self : component) :
  (length (calls (executed c lib self)) <= 1)%nat /\
  (length (lines (executed c lib self)) <= 1)%nat /\
  (c <> CreateBDVXML -> length (calls (executed c lib self)) = 1%nat) /\
  (returned (run_method (execute c) lib self).2 = true ->
   length (calls (executed c lib self)) = 1%nat /\
   (lines (executed c lib self) = [] <-> c = BlendTiles)).
Proof.
  destruct c; unfold_executes; executed_cases lib.
  all: repeat split; try done; try lia.
Qed.

(** X19: the conversion of [offset_array] at line 45 of CreateBDVXML stands
    before the [try].  When [np.array] raises there, [execute] raises the
    same exception and the component is as it was: no call into the
    library was made and no line logged, not even for an [Exception]. *)
Theorem X19_conversion_outside_the_try (np : value -> exn + value)
        (lib : VolAlign) (self : component) (e : exn) :
  np (match ports self !! "offset_array" with Some v => v | None => VNone end)
    = inl e ->
  run_method (CreateBDVXML_execute_with np) lib self = (self, inl e).
Proof.
  intros Hnp. unfold CreateBDVXML_execute_with. cbn. rewrite Hnp. reflexivity.
Qed.

Lemma X19_conversion_outside_the_try_witness :
  run_method (CreateBDVXML_execute_with
                (fun _ => inl (ValueError "inhomogeneous shape")))
             volalign_ok fresh
  = (fresh, inl (ValueError "inhomogeneous shape")).
Proof.
  apply (X19_conversion_outside_the_try
           (fun _ => inl (ValueError "inhomogeneous shape"))
           volalign_ok fresh (ValueError "inhomogeneous shape")).
  reflexivity.
Defined.
